(** * gh-search-docs: the argument reorderer, the query parameter builder
    and the result renderer of [main.go], embedded and verified.

  The development follows [main.go] top to bottom:
  - [GoInt]     : Go's [int] (64 bit, two's complement) on [Z];
  - [GoStrings] : the functions of package [strings] and [strconv] used;
  - [Reorder]   : [reorderArgs];
  - [Params]    : the construction of the [url.Values] of the request;
  - [Render]    : everything [main] writes to standard output once the
                  response has been decoded.                              *)

From Stdlib Require Import ZArith Lia DecimalString.
From stdpp Require Import base gmap list strings.

Local Open Scope Z_scope.

(* ===================================================================== *)
(** ** Go's [int]                                                         *)
(* ===================================================================== *)

Module GoInt.

(** [int] is 64 bits wide on amd64 and arm64, the architectures the
    Makefile of the repository builds for. *)
Definition bits : Z := 64.
Definition minInt : Z := - 2 ^ (bits - 1).
Definition maxInt : Z := 2 ^ (bits - 1) - 1.

(** What [encoding/json] accepts for a field of type [int]. *)
Definition inRange (x : Z) : Prop := minInt <= x <= maxInt.

(** Two's complement wrap-around of a mathematical result. *)
Definition wrap (x : Z) : Z := (x - minInt) mod 2 ^ bits + minInt.

Definition add (x y : Z) : Z := wrap (x + y).
Definition sub (x y : Z) : Z := wrap (x - y).

(** [x / y] truncates toward zero and panics when [y] is zero;
    [minInt / -1] wraps to [minInt]. *)
Definition div (x y : Z) : option Z :=
  if decide (y = 0) then None else Some (wrap (Z.quot x y)).

End GoInt.

(* ===================================================================== *)
(** ** Package [strings] and [strconv]                                    *)
(* ===================================================================== *)

Module GoStrings.

(** A Go string is a sequence of bytes, and [len] counts bytes: this is
    [string] with [String.length]. *)
Definition len (s : string) : Z := Z.of_nat (String.length s).

(** [strings.HasPrefix(s, prefix)] *)
Definition HasPrefix (s prefix : string) : bool := String.prefix prefix s.

(** [strings.Contains(s, substr)] *)
Fixpoint Contains (s substr : string) : bool :=
  String.prefix substr s ||
  match s with
  | EmptyString => false
  | String _ s' => Contains s' substr
  end.

(** [s[:n]] for [0 <= n <= len(s)] *)
Definition slice_to (s : string) (n : nat) : string := String.substring 0 n s.

(** [s[n:]] *)
Fixpoint slice_from (n : nat) (s : string) : string :=
  match n, s with
  | O, _ => s
  | S n', String _ s' => slice_from n' s'
  | S _, EmptyString => EmptyString
  end.

(** [strings.ReplaceAll(s, old, new)] for a non-empty [old]: the
    occurrences of [old] are replaced left to right, without overlap. *)
Fixpoint replaceFrom (fuel : nat) (s old new : string) : string :=
  match fuel with
  | O => s
  | S fuel' =>
      match s with
      | EmptyString => EmptyString
      | String c s' =>
          if String.prefix old s
          then new +:+ replaceFrom fuel' (slice_from (String.length old) s) old new
          else String c (replaceFrom fuel' s' old new)
      end
  end.

Definition ReplaceAll (s old new : string) : string :=
  replaceFrom (String.length s) s old new.

(** [strconv.Itoa], which is also what the verb [%d] prints. *)
Definition Itoa (n : Z) : string := NilZero.string_of_int (Z.to_int n).

(** The line feed, ["\n"]. *)
Definition nl : string := String (Ascii.ascii_of_nat 10) EmptyString.

(** [strings.Join] *)
Fixpoint Join (elems : list string) (sep : string) : string :=
  match elems with
  | [] => ""
  | [e] => e
  | e :: rest => e +:+ sep +:+ Join rest sep
  end.

End GoStrings.

Import GoStrings.

(* ===================================================================== *)
(** ** [reorderArgs]                                                      *)
(* ===================================================================== *)

Module Reorder.

(** The map literal [boolFlags]. *)
Definition boolFlags : gmap string bool :=
  list_to_map
    [ ("--debug", true);
      ("--plain", true);
      ("--list-versions", true);
      ("--include-matched-content", true) ].

(** [boolFlags[arg]]: a missing key reads as [false]. *)
Definition boolFlag (arg : string) : bool := default false (boolFlags !! arg).

(** The [for] loop of [reorderArgs]; [i] is the loop index, [flags] and
    [nonFlags] the two slices being appended to.  The loop ends when
    [i] reaches [len(args)], which is when [args !! i] is [None]. *)
Fixpoint loop (fuel : nat) (args : list string) (i : nat)
         (flags nonFlags : list string) : list string * list string :=
  match fuel with
  | O => (flags, nonFlags)
  | S fuel' =>
      match args !! i with
      | None => (flags, nonFlags)
      | Some arg =>
          if HasPrefix arg "-" then
            if Contains arg "=" then
              loop fuel' args (i + 1)%nat (flags ++ [arg]) nonFlags
            else if boolFlag arg then
              loop fuel' args (i + 1)%nat (flags ++ [arg]) nonFlags
            else
              match args !! (i + 1)%nat with
              | Some next =>
                  if negb (HasPrefix next "-") then
                    loop fuel' args (i + 1 + 1)%nat
                         ((flags ++ [arg]) ++ [next]) nonFlags
                  else
                    loop fuel' args (i + 1)%nat (flags ++ [arg]) nonFlags
              | None =>
                  loop fuel' args (i + 1)%nat (flags ++ [arg]) nonFlags
              end
          else
            loop fuel' args (i + 1)%nat flags (nonFlags ++ [arg])
      end
  end.

(** Every iteration advances [i], so [len(args)] iterations are enough. *)
Definition reorderArgs (args : list string) : list string :=
  let '(flags, nonFlags) := loop (length args) args 0 [] [] in
  flags ++ nonFlags.

(** The same scan written on the part of [args] that is still to be
    read, [args[i:]]; used to reason about [loop]. *)
Fixpoint scan (rest : list string) : list string * list string :=
  match rest with
  | [] => ([], [])
  | arg :: rest' =>
      if HasPrefix arg "-" then
        if Contains arg "=" || boolFlag arg then
          let '(f, n) := scan rest' in (arg :: f, n)
        else
          match rest' with
          | next :: rest'' =>
              if negb (HasPrefix next "-") then
                let '(f, n) := scan rest'' in (arg :: next :: f, n)
              else
                let '(f, n) := scan rest' in (arg :: f, n)
          | [] => ([arg], [])
          end
      else
        let '(f, n) := scan rest' in (f, arg :: n)
  end.

(** *** The contract of section 4.1, in the spec's words *)

(** A token is a flag token when it begins with the flag prefix. *)
Definition isFlagToken (t : string) : bool := HasPrefix t "-".

(** A flag token is value-taking when it has no embedded [=] and is not
    in the boolean flag set. *)
Definition valueTaking (t : string) : bool :=
  isFlagToken t && negb (Contains t "=") && negb (boolFlag t).

(** The class of each token: [true] for the tokens of the [flags] group
    (a flag token, or a token that immediately follows a value-taking
    flag token), [false] for a positional token.  [afterValueTaking]
    says whether the preceding token is a value-taking flag token. *)
Fixpoint classify (afterValueTaking : bool) (tokens : list string) : list bool :=
  match tokens with
  | [] => []
  | t :: rest =>
      (isFlagToken t || afterValueTaking) :: classify (valueTaking t) rest
  end.

(** The tokens of class [c], in their original order. *)
Fixpoint pick (c : bool) (classes : list bool) (tokens : list string) : list string :=
  match classes, tokens with
  | k :: classes', t :: tokens' =>
      if Bool.eqb k c then t :: pick c classes' tokens' else pick c classes' tokens'
  | _, _ => []
  end.

(** The two groups of a token sequence. *)
Definition splitByClass (tokens : list string) : list string * list string :=
  (pick true (classify false tokens) tokens,
   pick false (classify false tokens) tokens).

End Reorder.

(* ===================================================================== *)
(** ** The parsed flags                                                   *)
(* ===================================================================== *)

(** The values [fs.Parse] leaves behind the flag pointers and the four
    [StringSlice] variables of [main]. *)
Record Options := {
  queryFlag : string;
  sizeFlag : Z;
  versionFlag : string;
  languageFlag : string;
  pageFlag : Z;
  sortFlag : string;
  debugFlag : bool;
  formatFlag : string;
  plainFlag : bool;
  listVersions : bool;
  includeMatchedContentFlag : bool;
  highlights : list string;
  includes : list string;
  toplevel : list string;
  aggregate : list string
}.

(** The flag defaults of [main]. *)
Definition defaults : Options := {|
  queryFlag := ""; sizeFlag := 5; versionFlag := "free-pro-team";
  languageFlag := "en"; pageFlag := 0; sortFlag := ""; debugFlag := false;
  formatFlag := "pretty"; plainFlag := false; listVersions := false;
  includeMatchedContentFlag := false;
  highlights := []; includes := []; toplevel := []; aggregate := []
|}.

(** [StringSlice.Set]: a repeated flag appends its value. *)
Definition StringSlice_Set (s : list string) (value : string) : list string :=
  s ++ [value].

(** The query: the [--query] flag, else the positional arguments joined. *)
Definition queryOf (o : Options) (positional : list string) : string :=
  if decide (queryFlag o = "") then
    if decide (0 < length positional)%nat then Join positional " " else ""
  else queryFlag o.

(** The two checks on [--size]; [None] when the program goes on. *)
Definition checkSize (o : Options) : option string :=
  if decide (sizeFlag o > 50) then
    Some "Error: --size cannot exceed 50 (GitHub Docs API limit). Use --page to navigate through more results."
  else if decide (sizeFlag o < 1) then
    Some "Error: --size must be at least 1."
  else None.

(* ===================================================================== *)
(** ** The query parameters                                               *)
(* ===================================================================== *)

Module Params.

(** [url.Values] is [map[string][]string]. *)
Abbreviation Values := (gmap string (list string)).

(** [Values.Set]: the key gets exactly this value. *)
Definition Set_ (key value : string) (v : Values) : Values :=
  <[key := [value]]> v.

(** [Values.Add]: the value is appended to those of the key. *)
Definition Add (key value : string) (v : Values) : Values :=
  <[key := default [] (v !! key) ++ [value]]> v.

(** [for _, x := range xs { params.Add(key, x) }] *)
Definition AddEach (key : string) (xs : list string) (v : Values) : Values :=
  foldl (fun acc x => Add key x acc) v xs.

(** The section "Build URL with query parameters" of [main]; [query] is
    the resolved query and [version] the normalized version. *)
Definition buildParams (o : Options) (query version : string) : Values :=
  let params : Values := ∅ in
  let params := Set_ "query" query params in
  let params := Set_ "size" (Itoa (sizeFlag o)) params in
  let params := Set_ "version" version params in
  let params := Set_ "language" (languageFlag o) params in
  let params :=
    if decide (pageFlag o > 0) then Set_ "page" (Itoa (pageFlag o)) params
    else params in
  let params :=
    if decide (sortFlag o = "") then params
    else Set_ "sort" (sortFlag o) params in
  let params :=
    if decide (0 < length (highlights o))%nat
    then AddEach "highlights" (highlights o) params
    else params in
  let params :=
    if includeMatchedContentFlag o
    then Add "highlights" "content_explicit" params
    else params in
  let params :=
    if decide (length (includes o) = 0%nat) then
      if includeMatchedContentFlag o
      then Add "include" "toplevel" params
      else Add "include" "intro" params
    else AddEach "include" (includes o) params in
  let params :=
    if decide (0 < length (toplevel o))%nat
    then AddEach "toplevel" (toplevel o) params
    else params in
  let params :=
    if decide (0 < length (aggregate o))%nat
    then AddEach "aggregate" (aggregate o) params
    else params in
  params.

(** The values of a key, [v[key]]: a missing key reads as no value. *)
Definition values (key : string) (v : Values) : list string :=
  default [] (v !! key).

End Params.

(* ===================================================================== *)
(** ** The decoded response                                               *)
(* ===================================================================== *)

Module Api.

(** A finite [float64], as mantissa and binary exponent.  No code path
    of [main] reads a number of this type; it is only carried. *)
Definition float64 : Type := (Z * Z)%type.

(** What [encoding/json] stores in an [interface{}]. *)
#[warnings="-register-all"]
Inductive JSON :=
| JNull
| JBool (b : bool)
| JNumber (f : float64)
| JString (s : string)
| JArray (elems : list JSON)
| JObject (fields : list (string * JSON)).

Record SearchItem := {
  ID : string;
  Title : string;
  URL : string;
  Breadcrumbs : string;
  Content : string;
  Intro : string;
  Headings : string;
  Toplevel : string;
  (** [None] is the [nil] map. *)
  Highlights : option (gmap string JSON);
  Score : float64
}.

Record MetaFound := { Value : Z; Relation : string }.
Record MetaTook := { QueryMsec : Z; TotalMsec : Z }.
Record MetaInfo := { Found : MetaFound; Took : MetaTook; Page : Z; Size : Z }.
Record SearchResult := { Meta : MetaInfo; Hits : list SearchItem }.

(** The [int] fields of a decoded response are in range: a number that
    does not fit makes [json.Unmarshal] fail. *)
Definition decoded (r : SearchResult) : Prop :=
  GoInt.inRange (Value (Found (Meta r))) /\
  GoInt.inRange (Page (Meta r)) /\
  GoInt.inRange (Size (Meta r)).

End Api.

(* ===================================================================== *)
(** ** The output of [main]                                               *)
(* ===================================================================== *)

Module Render.

(** *** The styling engine, an external collaborator *)

(** [TermRenderer.Render]: the styled text, or an error. *)
Definition Renderer : Type := string -> option string.

(** What the terminal helpers of package [searchdocs] return in this
    run; [None] is the [nil] renderer. *)
Record Terminal := {
  NewAutoRendererNoWrap : option Renderer;
  IsLight : bool;
  NewRendererNoWrap : string -> option Renderer
}.

(** *** Standard output, one entry per call that prints *)

Inductive print :=
| PrintJSON (result : Api.SearchResult)
    (** [fmt.Println(string(output))] of the [json] format *)
| PrintNoResults (query : string)
    (** ["No results found for query: %s\n"] *)
| PrintFound (found : Z)
    (** ["Found %d results"] *)
| PrintFoundPage (page : Z)
    (** [" (page %d)"] *)
| PrintLn
    (** [fmt.Println()] *)
| PrintRendered (output : string)
    (** [fmt.Print(output)]: the styled block of one item *)
| PrintMarkdown (md : string)
    (** [fmt.Print(md.String())]: the unstyled block of one item *)
| PrintTitle (index : Z) (title : string)
    (** ["%d. %s\n"] *)
| PrintURL (url : string)
    (** ["   %s\n"] with the URL *)
| PrintDescription (description : string)
    (** ["   %s\n"] with the description *)
| PrintHighlight (cleanStr : string)
    (** ["   • %s\n"] *)
| PrintHintAll (found : Z)
    (** ["Showing top 5 results. Use --size %d to see all %d results.\n"] *)
| PrintHintMax
    (** ["Showing top 5 results. Use --size 50 to see the maximum 50 results per page.\n"] *)
| PrintHintPage (found : Z)
    (** ["Use --page to navigate through all %d results.\n"] *)
| PrintHintMatched
    (** ["Use --include-matched-content for highlighted matches instead of descriptions.\n\n"] *)
| PrintPagination (page totalPages found : Z)
    (** ["\nShowing page %d of %d (%d total results)\n"] *)
| PrintNextPage (next : Z)
    (** ["Use --page %d to see the next page\n"] *).

(** How [main] ends: by returning, or by a run-time panic. *)
Inductive panic := IndexOutOfRange | IntegerDivideByZero.
Inductive outcome := Returned | Panicked (p : panic).

(** A piece of [main]: what it prints and how it ends. *)
Definition Out : Type := (list print * outcome)%type.

Definition emit (ps : list print) : Out := (ps, Returned).
Definition raise (p : panic) : Out := ([], Panicked p).

(** Sequencing: what follows a panic does not run. *)
Definition andThen (a b : Out) : Out :=
  match snd a with
  | Returned => (fst a ++ fst b, snd b)
  | Panicked _ => a
  end.

Infix "+>" := andThen (at level 65, right associativity).

(** *** Short names for the fields [main] reads *)

Definition found (r : Api.SearchResult) : Z := Api.Value (Api.Found (Api.Meta r)).
Definition page (r : Api.SearchResult) : Z := Api.Page (Api.Meta r).
Definition pageSize (r : Api.SearchResult) : Z := Api.Size (Api.Meta r).
Definition hitCount (r : Api.SearchResult) : Z := Z.of_nat (length (Api.Hits r)).

(** *** How many results to show *)

Definition maxResults (o : Options) (r : Api.SearchResult) : Z :=
  let maxResults := hitCount r in
  if bool_decide (sizeFlag o = 5) && bool_decide (maxResults > 5)
     && negb (includeMatchedContentFlag o)
  then 5
  else if bool_decide (sizeFlag o < maxResults) then sizeFlag o
  else maxResults.

(** *** One item *)

Definition usePrettyRendering (o : Options) : bool :=
  negb (plainFlag o) && negb (bool_decide (formatFlag o = "plain")).

Definition chooseRenderer (o : Options) (t : Terminal) : option Renderer :=
  if usePrettyRendering o then
    match NewAutoRendererNoWrap t with
    | Some r => Some r
    | None => NewRendererNoWrap t (if IsLight t then "light" else "dark")
    end
  else None.

(** The summary line of an item. *)
Definition description (intro : string) : string :=
  if decide (len intro > 150) then slice_to intro 150 +:+ "..." else intro.

(** The fragments of [item.Highlights["content_explicit"]]: the strings
    of an array, or a single string. *)
Definition fragments (item : Api.SearchItem) : list string :=
  match Api.Highlights item with
  | None => []
  | Some hl =>
      match hl !! "content_explicit" with
      | Some (Api.JArray v) =>
          omap (fun highlight =>
                  match highlight with
                  | Api.JString str => Some str
                  | _ => None
                  end) v
      | Some (Api.JString v) => [v]
      | _ => []
      end
  end.

Definition cleanStr (str : string) : string :=
  ReplaceAll (ReplaceAll str "<mark>" "") "</mark>" "".

Definition docsHost : string := "https://docs.github.com".

(** The markdown block built in [md] for item number [i] (from 0). *)
Definition markdown (o : Options) (i : Z) (item : Api.SearchItem) : string :=
  (Itoa (GoInt.add i 1) +:+ ". " +:+ Api.Title item +:+ nl) +:+
  ("   " +:+ (docsHost +:+ Api.URL item) +:+ nl) +:+
  (if negb (includeMatchedContentFlag o) then
     if decide (Api.Intro item = "") then ""
     else "   " +:+ description (Api.Intro item) +:+ nl
   else "") +:+
  (if includeMatchedContentFlag o then
     foldr (fun str acc => ("   • " +:+ str +:+ nl) +:+ acc) "" (fragments item)
   else "") +:+
  nl.

(** The body of the [for] loop for item number [i] (from 0). *)
Definition showItem (o : Options) (renderer : option Renderer)
           (i : Z) (item : Api.SearchItem) : list print :=
  if usePrettyRendering o then
    let md := markdown o i item in
    match renderer with
    | Some render =>
        match render md with
        | Some output => [PrintRendered output]
        | None => [PrintMarkdown md]
        end
    | None => [PrintMarkdown md]
    end
  else
    [PrintTitle (GoInt.add i 1) (Api.Title item);
     PrintURL (docsHost +:+ Api.URL item)] ++
    (if negb (includeMatchedContentFlag o) then
       if decide (Api.Intro item = "") then []
       else [PrintDescription (description (Api.Intro item))]
     else []) ++
    (if includeMatchedContentFlag o then
       (fun str => PrintHighlight (cleanStr str)) <$> fragments item
     else []) ++
    [PrintLn].

(** [for i := 0; i < maxResults; i++ { item := result.Hits[i]; ... }]
    from index [i] on, with [todo] iterations left; indexing past the
    end of [Hits] panics. *)
Fixpoint listing (o : Options) (renderer : option Renderer)
         (hits : list Api.SearchItem) (i todo : nat) : Out :=
  match todo with
  | O => emit []
  | S todo' =>
      match hits !! i with
      | None => raise IndexOutOfRange
      | Some item =>
          emit (showItem o renderer (Z.of_nat i) item) +>
          listing o renderer hits (S i) todo'
      end
  end.

(** *** After the listing *)

(** "Show info about remaining results if there are more than shown". *)
Definition hint (o : Options) (r : Api.SearchResult) (maxResults : Z) : list print :=
  if bool_decide (maxResults = 5) && bool_decide (found r > 5)
     && negb (includeMatchedContentFlag o)
  then
    (if decide (found r <= 50) then [PrintHintAll (found r)]
     else [PrintHintMax; PrintHintPage (found r)]) ++
    [PrintHintMatched]
  else [].

(** [(result.Meta.Found.Value + result.Meta.Size - 1) / result.Meta.Size] *)
Definition totalPages (r : Api.SearchResult) : option Z :=
  GoInt.div (GoInt.sub (GoInt.add (found r) (pageSize r)) 1) (pageSize r).

(** "Show pagination info". *)
Definition pagination (r : Api.SearchResult) : Out :=
  match totalPages r with
  | None => raise IntegerDivideByZero
  | Some totalPages =>
      if decide (totalPages > 1) then
        emit ([PrintPagination (page r) totalPages (found r)] ++
              (if decide (page r < totalPages)
               then [PrintNextPage (GoInt.add (page r) 1)]
               else []))
      else emit []
  end.

(** *** The section "Output Results" of [main] *)

Definition output (o : Options) (t : Terminal) (query : string)
           (result : Api.SearchResult) : Out :=
  if decide (formatFlag o = "json") then
    emit [PrintJSON result]
  else if decide (found result = 0) then
    emit [PrintNoResults query]
  else
    emit ([PrintFound (found result)] ++
          (if decide (page result > 1) then [PrintFoundPage (page result)] else []) ++
          [PrintLn]) +>
    let maxResults := maxResults o result in
    listing o (chooseRenderer o t) (Api.Hits result) 0 (Z.to_nat maxResults) +>
    emit (hint o result maxResults) +>
    pagination result.

(** The blocks of the first [n] hits, in order: what the loop prints
    when it does not panic. *)
Definition blocks (o : Options) (renderer : option Renderer)
           (hits : list Api.SearchItem) (n : nat) : list print :=
  concat (imap (fun i item => showItem o renderer (Z.of_nat i) item) (take n hits)).

(** The line that opens the listing. *)
Definition header (result : Api.SearchResult) : list print :=
  [PrintFound (found result)] ++
  (if decide (page result > 1) then [PrintFoundPage (page result)] else []) ++
  [PrintLn].

(** When the hint condition holds, this is what is printed. *)
Definition hintText (r : Api.SearchResult) : list print :=
  (if decide (found r <= 50) then [PrintHintAll (found r)]
   else [PrintHintMax; PrintHintPage (found r)]) ++ [PrintHintMatched].

(** *** Reading the output *)

(** The entries that open the block of one item. *)
Definition opensItem (p : print) : bool :=
  match p with
  | PrintRendered _ | PrintMarkdown _ | PrintTitle _ _ => true
  | _ => false
  end.

(** The number of items shown. *)
Definition itemsShown (ps : list print) : Z :=
  Z.of_nat (length (filter (fun p => opensItem p = true) ps)).

(** The entries of the "more results" hint. *)
Definition isHint (p : print) : bool :=
  match p with
  | PrintHintAll _ | PrintHintMax | PrintHintPage _ | PrintHintMatched => true
  | _ => false
  end.

Definition hintPrinted (ps : list print) : list print :=
  filter (fun p => isHint p = true) ps.

(** The entries of the pagination section. *)
Definition isPagination (p : print) : bool :=
  match p with
  | PrintPagination _ _ _ | PrintNextPage _ => true
  | _ => false
  end.

Definition paginationPrinted (ps : list print) : list print :=
  filter (fun p => isPagination p = true) ps.

(** The bytes each entry writes; [marshal] stands for
    [json.MarshalIndent(result, "", "  ")]. *)
Definition text (marshal : Api.SearchResult -> string) (p : print) : string :=
  match p with
  | PrintJSON result => marshal result +:+ nl
  | PrintNoResults query => "No results found for query: " +:+ query +:+ nl
  | PrintFound n => "Found " +:+ Itoa n +:+ " results"
  | PrintFoundPage n => " (page " +:+ Itoa n +:+ ")"
  | PrintLn => nl
  | PrintRendered output => output
  | PrintMarkdown md => md
  | PrintTitle index title => Itoa index +:+ ". " +:+ title +:+ nl
  | PrintURL url => "   " +:+ url +:+ nl
  | PrintDescription d => "   " +:+ d +:+ nl
  | PrintHighlight str => "   • " +:+ str +:+ nl
  | PrintHintAll n =>
      "Showing top 5 results. Use --size " +:+ Itoa n +:+ " to see all "
      +:+ Itoa n +:+ " results." +:+ nl
  | PrintHintMax =>
      "Showing top 5 results. Use --size 50 to see the maximum 50 results per page."
      +:+ nl
  | PrintHintPage n =>
      "Use --page to navigate through all " +:+ Itoa n +:+ " results." +:+ nl
  | PrintHintMatched =>
      "Use --include-matched-content for highlighted matches instead of descriptions."
      +:+ nl +:+ nl
  | PrintPagination p total n =>
      nl +:+ "Showing page " +:+ Itoa p +:+ " of " +:+ Itoa total +:+ " ("
      +:+ Itoa n +:+ " total results)" +:+ nl
  | PrintNextPage n => "Use --page " +:+ Itoa n +:+ " to see the next page" +:+ nl
  end.

(** *** The pagination of section 4.3, in the spec's words *)

(** The integer ceiling of [a / b], for a positive [b]: the least [t]
    with [a <= t * b]. *)
Definition ceilDiv (a b : Z) : Z := - (- a / b).

End Render.

(* ===================================================================== *)
(** ** [StringSlice]                                                      *)
(* ===================================================================== *)

Module StringSlice.

(** [func (s *StringSlice) String() string] *)
Definition String_ (s : list string) : string := Join s ",".

(** [func (s *StringSlice) Set(value string) error]: the new slice; the
    error returned is always [nil]. *)
Definition Set_ (s : list string) (value : string) : list string :=
  StringSlice_Set s value.

(** The slice after the flag has been given with each of [values], in
    this order, starting from [s]. *)
Definition SetEach (s : list string) (values : list string) : list string :=
  foldl Set_ s values.

End StringSlice.

(* ===================================================================== *)
(** ** Package [searchdocs]: versions                                     *)
(* ===================================================================== *)

Module Versions.

(** The struct [SupportedVersions]; its field [SupportedVersions] is
    [Versions] here, a record and its field cannot share a name. *)
Record SupportedVersions := {
  LastUpdated : string;
  Versions : list string;
  LatestVersion : string
}.

(** What one call of [LoadSupportedVersions] returns: the message of the
    error, or the decoded file. *)
Definition Loaded : Type := (string + SupportedVersions)%type.

(** [strings.TrimPrefix(s, prefix)] *)
Definition TrimPrefix (s prefix : string) : string :=
  if HasPrefix s prefix then slice_from (String.length prefix) s else s.

(** [for _, v := range versions { if v == version { return true } };
    return false] *)
Fixpoint among (versions : list string) (version : string) : bool :=
  match versions with
  | [] => false
  | v :: rest => if decide (v = version) then true else among rest version
  end.

Definition hardcodedVersions : list string := ["3.14"; "3.15"; "3.16"; "3.17"].

(** [IsVersionSupported]; [load] is the result of its call of
    [LoadSupportedVersions]. *)
Definition IsVersionSupported (load : Loaded) (version : string) : bool :=
  match load with
  | inl _ => among hardcodedVersions version
  | inr versions => among (Versions versions) version
  end.

(** [NormalizeVersion]; [load1] is the result of the call of
    [LoadSupportedVersions] made by [IsVersionSupported] and [load2] the
    result of the call made for the fallback. *)
Definition NormalizeVersion (load1 load2 : Loaded) (v : string) : string :=
  if decide (v = "free-pro-team") then v
  else if decide (v = "enterprise-cloud") then v
  else if HasPrefix v "enterprise-server@" then
    let versionPart := TrimPrefix v "enterprise-server@" in
    if IsVersionSupported load1 versionPart then v
    else
      match load2 with
      | inr versions =>
          if decide (LatestVersion versions = "") then "enterprise-server@3.17"
          else "enterprise-server@" +:+ LatestVersion versions
      | inl _ => "enterprise-server@3.17"
      end
  else "free-pro-team".

(** The lines [main] prints for [--list-versions] once the file has been
    loaded. *)
Definition listing (versions : SupportedVersions) : list string :=
  ["Supported GitHub Enterprise Server versions:" +:+ nl] ++
  ((fun version =>
      if decide (version = LatestVersion versions)
      then "  " +:+ version +:+ " (latest)" +:+ nl
      else "  " +:+ version +:+ nl) <$> Versions versions) ++
  [nl +:+ "Last updated: " +:+ LastUpdated versions +:+ nl;
   nl +:+ "Usage: gh search-docs --version enterprise-server@<version> <query>" +:+ nl].

End Versions.

(* ===================================================================== *)
(** ** Package [searchdocs]: the terminal                                 *)
(* ===================================================================== *)

Module Term.

(** The environment of the process: [os.Getenv] (a variable that is not
    set reads as the empty string) and [runtime.GOOS]. *)
Record Env := {
  Getenv : string -> string;
  GOOS : string
}.

Section Library.

(** [strings.Split] and [strconv.Atoi] ([None] for an error). *)
Variable Split : string -> string -> list string.
Variable Atoi : string -> option Z.

(** The verdict of the [COLORFGBG] block of [IsLight], [None] when the
    block does not return. *)
Definition fromColorfgbg (e : Env) : option bool :=
  let colorfgbg := Getenv e "COLORFGBG" in
  if decide (colorfgbg = "") then None
  else
    let parts := Split colorfgbg ";" in
    if decide (2 <= length parts)%nat then
      match Atoi (default "" (last parts)) with
      | Some bg => Some (bool_decide (bg >= 7))
      | None => None
      end
    else None.

(** [IsLight] *)
Definition IsLight (e : Env) : bool :=
  if decide (Getenv e "GH_THEME" = "light") then true
  else if decide (Getenv e "GH_THEME" = "dark") then false
  else
    match fromColorfgbg e with
    | Some light => light
    | None =>
        let termProgram := Getenv e "TERM_PROGRAM" in
        if decide (termProgram = "Apple_Terminal") then true
        else if decide (termProgram = "iTerm.app") then false
        else if decide (termProgram = "vscode") then false
        else if bool_decide (Getenv e "VSCODE_INJECTION" <> "")
                || bool_decide (Getenv e "TERM_PROGRAM" = "vscode") then false
        else if decide (GOOS e = "windows") then
          if decide (Getenv e "WT_SESSION" <> "") then false else true
        else if decide (GOOS e = "darwin") then false
        else false
    end.

(** [err == nil && width > 0] *)
Definition usable (size : option Z) : option Z :=
  match size with
  | Some width => if decide (width > 0) then Some width else None
  | None => None
  end.

(** [GetTerminalWidth]; [stdoutSize] and [stderrSize] are what
    [term.GetSize] returns for the two descriptors: the width, or [None]
    for an error. *)
Definition GetTerminalWidth (e : Env) (stdoutSize stderrSize : option Z) : Z :=
  match usable stdoutSize with
  | Some width => width
  | None =>
      match usable stderrSize with
      | Some width => width
      | None =>
          let cols := Getenv e "COLUMNS" in
          match (if decide (cols = "") then None else usable (Atoi cols)) with
          | Some width => width
          | None => 120
          end
      end
  end.

End Library.

End Term.

(* ===================================================================== *)
(** ** [main], from the parsed flags to the exit                          *)
(* ===================================================================== *)

Module Main.

Import Render.

(** What the GET request of [main] comes to. *)
Inductive Reply :=
| NewRequestError (err : string)
    (** [http.NewRequest] failed *)
| DoError (err : string)
    (** [http.DefaultClient.Do] failed *)
| Response (StatusCode : Z) (body : string + string)
    (** a response, and what [io.ReadAll(resp.Body)] gives: the message
        of the error, or the bytes *).

(** Everything outside the program that a run of [main] meets. *)
Record World := {
  (** [filepath.Base(os.Args[0])] *)
  base : string;
  (** what [fs.PrintDefaults] writes *)
  PrintDefaults : string;
  (** the calls of [LoadSupportedVersions], in the order they are made *)
  firstLoad : Versions.Loaded;
  secondLoad : Versions.Loaded;
  (** the request to [endpoint] whose query string is [params.Encode()] *)
  Do : gmap string (list string) -> Reply;
  (** [json.Unmarshal(body, &result)]: the message of the error, or the
      result *)
  Unmarshal : string -> string + Api.SearchResult;
  terminal : Terminal
}.

(** How the process ends: [os.Exit(code)] (returning from [main] is code
    0), or a run-time panic. *)
Inductive status := Exit (code : Z) | Crash (p : panic).

(** A run: what was written to the two streams, in order, and how the
    process ended.  Standard output holds the lines of [--list-versions]
    ([inl]) or the entries of the section "Output Results" ([inr]).  The
    report the run time makes of a panic is not part of [stderr]. *)
Record Run := {
  stdout : list (string + print);
  stderr : list string;
  ending : status
}.

(** A run that fails with these lines on standard error. *)
Definition failure (lines : list string) : Run :=
  {| stdout := []; stderr := lines; ending := Exit 1 |}.

(** [searchdocs.Fatal(err)] *)
Definition Fatal (err : string) : Run := failure ["error: " +:+ err +:+ nl].

(** [fs.Usage] *)
Definition Usage (w : World) : list string :=
  let bin := base w in
  let bin :=
    if HasPrefix bin "gh-" then "gh " +:+ Versions.TrimPrefix bin "gh-" else bin in
  ["usage: " +:+ bin +:+ " [flags] <query>" +:+ nl +:+ nl;
   "By default, output uses pretty formatting with colors." +:+ nl;
   "Use --plain for simple text output with clickable URLs." +:+ nl +:+ nl;
   PrintDefaults w].

(** [main] after [fs.Parse]: [o] holds the flags and [args] is
    [fs.Args()]. *)
Definition main (w : World) (o : Options) (args : list string) : Run :=
  if listVersions o then
    match firstLoad w with
    | inl err =>
        failure
          ["Error loading supported versions: " +:+ err +:+ nl;
           "Fallback supported versions: 3.11, 3.12, 3.13, 3.14, 3.15, 3.16, 3.17" +:+ nl]
    | inr versions =>
        {| stdout := inl <$> Versions.listing versions;
           stderr := [];
           ending := Exit 0 |}
    end
  else
    let query := queryOf o args in
    if decide (query = "") then failure (Usage w)
    else
      match checkSize o with
      | Some message => failure [message +:+ nl]
      | None =>
          let version :=
            Versions.NormalizeVersion (firstLoad w) (secondLoad w) (versionFlag o) in
          let params := Params.buildParams o query version in
          match Do w params with
          | NewRequestError err => Fatal err
          | DoError err => failure ["Error making request: " +:+ err +:+ nl]
          | Response StatusCode read =>
              if decide (StatusCode <> 200) then
                failure
                  (["API returned status " +:+ Itoa StatusCode +:+ nl] ++
                   (if decide (StatusCode = 429)
                    then ["Rate limited. Please try again later." +:+ nl]
                    else []))
              else
                match read with
                | inl err => Fatal err
                | inr body =>
                    let raw :=
                      if debugFlag o
                      then ["Raw response:" +:+ nl +:+ body +:+ nl] else [] in
                    match Unmarshal w body with
                    | inl err =>
                        {| stdout := [];
                           stderr :=
                             raw ++
                             ["Error parsing response: " +:+ err +:+ nl] ++
                             (if debugFlag o
                              then ["Response body: " +:+ body +:+ nl] else []);
                           ending := Exit 1 |}
                    | inr result =>
                        let '(printed, how) := output o (terminal w) query result in
                        {| stdout := inr <$> printed;
                           stderr := raw;
                           ending :=
                             match how with
                             | Returned => Exit 0
                             | Panicked p => Crash p
                             end |}
                    end
                end
          end
      end.

End Main.

(* ===================================================================== *)
(** ** More readings of the output                                        *)
(* ===================================================================== *)

Module Reading.

Import Render.

(** The numbered titles of plain output, in the order printed. *)
Definition titles (ps : list print) : list (Z * string) :=
  omap (fun p =>
          match p with
          | PrintTitle index title => Some (index, title)
          | _ => None
          end) ps.

(** The bytes the entries write, one after the other. *)
Definition written (marshal : Api.SearchResult -> string) (ps : list print) : string :=
  foldr (fun p acc => text marshal p +:+ acc) "" ps.

(** The first branch of the count selection is taken: the listing is
    reached and the test of the preview cap holds. *)
Definition previewBranch (o : Options) (r : Api.SearchResult) : Prop :=
  formatFlag o <> "json" /\ found r <> 0 /\
  sizeFlag o = 5 /\ hitCount r > 5 /\ includeMatchedContentFlag o = false.

End Reading.

(* ===================================================================== *)
(** ** Sample runs                                                        *)
(* ===================================================================== *)

Module Samples.

Import Render.

(** A hit with the given intro and nothing else of interest. *)
Definition hit (intro : string) : Api.SearchItem := {|
  Api.ID := "1"; Api.Title := "About SSH"; Api.URL := "/en/authentication";
  Api.Breadcrumbs := ""; Api.Content := ""; Api.Intro := intro;
  Api.Headings := ""; Api.Toplevel := ""; Api.Highlights := None;
  Api.Score := (0, 0)
|}.

(** A response with [n] hits on page [page]. *)
Definition response (foundValue size page : Z) (n : nat) : Api.SearchResult := {|
  Api.Meta := {|
    Api.Found := {| Api.Value := foundValue; Api.Relation := "eq" |};
    Api.Took := {| Api.QueryMsec := 5; Api.TotalMsec := 10 |};
    Api.Page := page;
    Api.Size := size
  |};
  Api.Hits := replicate n (hit "Connect with SSH keys.")
|}.

(** A terminal without styling engine. *)
Definition dumb : Terminal := {|
  NewAutoRendererNoWrap := None;
  IsLight := false;
  NewRendererNoWrap := fun _ => None
|}.

Definition withSize (size : Z) : Options := {|
  queryFlag := ""; sizeFlag := size; versionFlag := "free-pro-team";
  languageFlag := "en"; pageFlag := 0; sortFlag := ""; debugFlag := false;
  formatFlag := "pretty"; plainFlag := false; listVersions := false;
  includeMatchedContentFlag := false;
  highlights := []; includes := []; toplevel := []; aggregate := []
|}.

Definition withFormat (format : string) : Options := {|
  queryFlag := ""; sizeFlag := 5; versionFlag := "free-pro-team";
  languageFlag := "en"; pageFlag := 0; sortFlag := ""; debugFlag := false;
  formatFlag := format; plainFlag := false; listVersions := false;
  includeMatchedContentFlag := false;
  highlights := []; includes := []; toplevel := []; aggregate := []
|}.

(** An intro of [n] bytes. *)
Definition introOf (n : nat) : string :=
  String.string_of_list_ascii (replicate n (Ascii.ascii_of_nat 97)).

End Samples.

(* ===================================================================== *)
(** ** More sample runs                                                   *)
(* ===================================================================== *)

Module MoreSamples.

Import Render Samples.

(** The flags [o] with [--debug] set or not. *)
Definition withDebug (debug : bool) (o : Options) : Options := {|
  queryFlag := queryFlag o; sizeFlag := sizeFlag o;
  versionFlag := versionFlag o; languageFlag := languageFlag o;
  pageFlag := pageFlag o; sortFlag := sortFlag o; debugFlag := debug;
  formatFlag := formatFlag o; plainFlag := plainFlag o;
  listVersions := listVersions o;
  includeMatchedContentFlag := includeMatchedContentFlag o;
  highlights := highlights o; includes := includes o;
  toplevel := toplevel o; aggregate := aggregate o
|}.

(** The flags of [--plain], with results of the given size. *)
Definition plainWithSize (size : Z) : Options := {|
  queryFlag := ""; sizeFlag := size; versionFlag := "free-pro-team";
  languageFlag := "en"; pageFlag := 0; sortFlag := ""; debugFlag := false;
  formatFlag := "pretty"; plainFlag := true; listVersions := false;
  includeMatchedContentFlag := false;
  highlights := []; includes := []; toplevel := []; aggregate := []
|}.

(** The flags of [--list-versions]. *)
Definition listVersionsOnly : Options := {|
  queryFlag := ""; sizeFlag := 5; versionFlag := "free-pro-team";
  languageFlag := "en"; pageFlag := 0; sortFlag := ""; debugFlag := false;
  formatFlag := "pretty"; plainFlag := false; listVersions := true;
  includeMatchedContentFlag := false;
  highlights := []; includes := []; toplevel := []; aggregate := []
|}.

(** A versions file. *)
Definition versionsFile : Versions.SupportedVersions := {|
  Versions.LastUpdated := "2025-01-01";
  Versions.Versions := ["3.15"; "3.16"; "3.17"];
  Versions.LatestVersion := "3.17"
|}.

(** A world where the API answers every request with [reply]. *)
Definition answering (reply : Main.Reply) (result : Api.SearchResult) : Main.World := {|
  Main.base := "gh-search-docs";
  Main.PrintDefaults := "";
  Main.firstLoad := inr versionsFile;
  Main.secondLoad := inr versionsFile;
  Main.Do := fun _ => reply;
  Main.Unmarshal := fun _ => inr result;
  Main.terminal := dumb
|}.

(** An environment with the given variables. *)
Definition env (vars : list (string * string)) (goos : string) : Term.Env := {|
  Term.Getenv := fun name => default "" ((list_to_map vars : gmap string string) !! name);
  Term.GOOS := goos
|}.

(** A terminal whose styling engine returns the markdown as it is. *)
Definition styled : Terminal := {|
  NewAutoRendererNoWrap := Some (fun md => Some md);
  IsLight := false;
  NewRendererNoWrap := fun _ => None
|}.

(** Stand-ins for [strings.Split] and [strconv.Atoi] where they are not
    reached. *)
Definition noSplit : string -> string -> list string := fun _ _ => [].
Definition noAtoi : string -> option Z := fun _ => None.

(** [strconv.Atoi] on the one string these runs give it. *)
Definition atoi100 : string -> option Z :=
  fun s => if decide (s = "100") then Some 100 else None.

End MoreSamples.

(* ===================================================================== *)
(** * Properties                                                          *)
(* ===================================================================== *)

(** ** Go's [int] *)

Section GoIntFacts.

Import GoInt.

Lemma wrap_inRange x : inRange x -> wrap x = x.
Proof.
  unfold inRange, wrap, minInt, maxInt, bits. intros H.
  rewrite Z.mod_small; lia.
Qed.

Lemma wrap_range x : inRange (wrap x).
Proof.
  unfold inRange, wrap, minInt, maxInt, bits.
  pose proof (Z.mod_pos_bound (x - - 2 ^ (64 - 1)) (2 ^ 64) ltac:(lia)).
  lia.
Qed.

Lemma wrap_add_l x y : wrap (wrap x + y) = wrap (x + y).
Proof.
  unfold wrap. f_equal.
  replace ((x - minInt) mod 2 ^ bits + minInt + y - minInt)
    with ((x - minInt) mod 2 ^ bits + y) by lia.
  rewrite Zplus_mod_idemp_l. f_equal. lia.
Qed.

Lemma div_None x y : div x y = None <-> y = 0.
Proof. unfold div. case_decide; split; intros; congruence. Qed.

End GoIntFacts.

(** ** The argument reorderer *)

Section ReorderFacts.

Import Reorder.

(** The three ways [scan] treats the token it reads. *)
Lemma scan_positional (arg : string) (rest : list string) :
  HasPrefix arg "-" = false ->
  scan (arg :: rest) = ((scan rest).1, arg :: (scan rest).2).
Proof. intros H. simpl. rewrite H. by destruct (scan rest). Qed.

Lemma scan_flag_alone (arg : string) (rest : list string) :
  HasPrefix arg "-" = true ->
  Contains arg "=" || boolFlag arg = true \/
  match rest with next :: _ => HasPrefix next "-" = true | [] => True end ->
  scan (arg :: rest) = (arg :: (scan rest).1, (scan rest).2).
Proof.
  intros H Hcase. cbn [scan]. rewrite H.
  destruct (Contains arg "=" || boolFlag arg); [by destruct (scan rest)|].
  destruct Hcase as [|Hcase]; [done|].
  destruct rest as [|next rest]; [done|].
  rewrite Hcase. cbn [negb]. by destruct (scan (next :: rest)).
Qed.

Lemma scan_flag_value (arg next : string) (rest : list string) :
  HasPrefix arg "-" = true ->
  Contains arg "=" || boolFlag arg = false ->
  HasPrefix next "-" = false ->
  scan (arg :: next :: rest) = (arg :: next :: (scan rest).1, (scan rest).2).
Proof.
  intros H1 H2 H3. cbn [scan]. rewrite H1, H2, H3. cbn [negb].
  by destruct (scan rest).
Qed.

(** The loop reads [args] from index [i] the way [scan] reads [args[i:]],
    whenever the fuel covers what is left of [args]. *)
Lemma loop_scan fuel : forall (args : list string) (i : nat) (flags nonFlags : list string),
  (length args <= i + fuel)%nat ->
  loop fuel args i flags nonFlags =
  (flags ++ (scan (drop i args)).1, nonFlags ++ (scan (drop i args)).2).
Proof.
  induction fuel as [|fuel IH]; intros args i flags nonFlags Hlen.
  - rewrite drop_ge by lia. cbn. by rewrite !app_nil_r.
  - cbn [loop]. destruct (args !! i) as [arg|] eqn:Hi.
    + rewrite (drop_S _ _ _ Hi).
      replace (i + 1)%nat with (S i) by lia.
      destruct (HasPrefix arg "-") eqn:Hdash.
      * destruct (Contains arg "=") eqn:Heq.
        { rewrite IH by lia. rewrite scan_flag_alone by (by rewrite ?Heq; auto).
          cbn [fst snd]. by rewrite <- app_assoc. }
        destruct (boolFlag arg) eqn:Hbool.
        { rewrite IH by lia.
          rewrite scan_flag_alone by (by rewrite ?Heq, ?Hbool; auto).
          cbn [fst snd]. by rewrite <- app_assoc. }
        destruct (args !! S i) as [next|] eqn:Hnext.
        -- rewrite (drop_S _ _ _ Hnext).
           destruct (HasPrefix next "-") eqn:Hnd; cbn [negb].
           ++ rewrite IH by lia. rewrite (drop_S _ _ _ Hnext).
              rewrite (scan_flag_alone arg); [|done|].
              ** cbn [fst snd]. by rewrite <- app_assoc.
              ** by right.
           ++ replace (S i + 1)%nat with (S (S i)) by lia.
              rewrite IH by lia.
              rewrite scan_flag_value by (by rewrite ?Heq, ?Hbool).
              cbn [fst snd]. by rewrite <- !app_assoc.
        -- apply lookup_ge_None in Hnext.
           rewrite IH by lia. rewrite (drop_ge args (S i)) by lia.
           cbn [scan]. rewrite Hdash, Heq, Hbool. cbn. by rewrite app_nil_r.
      * rewrite IH by lia. rewrite scan_positional by done.
        cbn [fst snd]. by rewrite <- app_assoc.
    + apply lookup_ge_None in Hi. rewrite drop_ge by lia.
      cbn. by rewrite !app_nil_r.
Qed.

Lemma reorderArgs_scan (args : list string) :
  reorderArgs args = (scan args).1 ++ (scan args).2.
Proof.
  unfold reorderArgs. rewrite loop_scan by lia. by rewrite drop_0.
Qed.

(** More fuel than [len(args)] changes nothing: the loop ends by its own
    test. *)
Lemma loop_fuel (args : list string) (fuel : nat) :
  (length args <= fuel)%nat ->
  loop fuel args 0 [] [] = loop (length args) args 0 [] [].
Proof. intros H. by rewrite !loop_scan by lia. Qed.

(** A flag token is in the flags group whatever precedes it. *)
Lemma classify_flag_first (t : string) (rest : list string) (b : bool) :
  isFlagToken t = true -> classify b (t :: rest) = classify false (t :: rest).
Proof. cbn. by intros ->. Qed.

(** The scan splits the tokens by class. *)
Lemma scan_split_le (n : nat) : forall tokens : list string,
  (length tokens <= n)%nat -> scan tokens = splitByClass tokens.
Proof.
  induction n as [|n IH]; intros [|arg rest] Hlen; cbn in Hlen; try done; try lia.
  destruct (HasPrefix arg "-") eqn:Hdash.
  - destruct (Contains arg "=" || boolFlag arg) eqn:Hval.
    { rewrite scan_flag_alone by auto. rewrite IH by lia.
      unfold splitByClass. cbn. unfold isFlagToken, valueTaking, isFlagToken.
      rewrite Hdash. cbn.
      replace (negb (Contains arg "=") && negb (boolFlag arg)) with false
        by (by destruct (Contains arg "="), (boolFlag arg)).
      done. }
    assert (valueTaking arg = true) as Hvt.
    { unfold valueTaking, isFlagToken. rewrite Hdash.
      by destruct (Contains arg "="), (boolFlag arg). }
    destruct rest as [|next rest'].
    { cbn [scan]. rewrite Hdash, Hval. unfold splitByClass. cbn [classify pick].
      unfold isFlagToken. by rewrite Hdash. }
    destruct (HasPrefix next "-") eqn:Hnd.
    + rewrite scan_flag_alone; [|done|by right].
      rewrite IH by lia. unfold splitByClass.
      change (classify false (arg :: next :: rest'))
        with ((isFlagToken arg || false) :: classify (valueTaking arg) (next :: rest')).
      rewrite Hvt, (classify_flag_first next rest' true) by done.
      unfold isFlagToken at 1 2. rewrite Hdash. done.
    + rewrite scan_flag_value by done. rewrite IH by (cbn in Hlen; lia).
      unfold splitByClass. cbn [classify pick]. rewrite Hvt.
      unfold isFlagToken, valueTaking, isFlagToken. rewrite Hdash, Hnd. done.
  - rewrite scan_positional by done. rewrite IH by lia.
    unfold splitByClass. cbn [classify pick].
    unfold isFlagToken, valueTaking, isFlagToken. rewrite Hdash. done.
Qed.

Lemma scan_split (tokens : list string) : scan tokens = splitByClass tokens.
Proof. by apply (scan_split_le (length tokens)). Qed.

(** Facts on [classify] and [pick]. *)
Lemma classify_length (b : bool) (tokens : list string) :
  length (classify b tokens) = length tokens.
Proof. revert b. induction tokens as [|t rest IH]; intros b; cbn; auto. Qed.

Lemma pick_sublist (c : bool) (classes : list bool) : forall tokens : list string,
  sublist (pick c classes tokens) tokens.
Proof.
  induction classes as [|k classes IH]; intros [|t tokens]; cbn;
    try apply sublist_nil_l.
  destruct (Bool.eqb k c); [apply sublist_skip | apply sublist_cons]; apply IH.
Qed.

Lemma pick_perm (classes : list bool) : forall tokens : list string,
  length classes = length tokens ->
  pick true classes tokens ++ pick false classes tokens ≡ₚ tokens.
Proof.
  induction classes as [|k classes IH]; intros [|t tokens] Hlen;
    cbn in *; try done.
  destruct k; cbn.
  - f_equiv. apply IH. lia.
  - rewrite <- Permutation_middle. f_equiv. apply IH. lia.
Qed.

Lemma pick_positional (b : bool) (tokens : list string) :
  Forall (fun t => isFlagToken t = false) (pick false (classify b tokens) tokens).
Proof.
  revert b. induction tokens as [|t rest IH]; intros b; cbn; [constructor|].
  destruct (isFlagToken t) eqn:Ht; cbn; [apply IH|].
  destruct b; cbn; [apply IH|]. constructor; [done|apply IH].
Qed.

(** C4. Argument Reorderer contract: for every token sequence the result
    of [reorderArgs] is [flags ++ positionals], where [flags] holds the
    tokens of the flags class (every flag token, and every token that
    immediately follows a value-taking flag token without being a flag
    token itself) and [positionals] all the other tokens, each group in
    the order of the input; the result is a permutation of the input, of
    the same length, and no flag token is left among the positionals. *)
Theorem reorderArgs_contract (args : list string) :
  let classes := classify false args in
  let flags := pick true classes args in
  let positionals := pick false classes args in
  reorderArgs args = flags ++ positionals /\
  reorderArgs args ≡ₚ args /\
  length (reorderArgs args) = length args /\
  sublist flags args /\
  sublist positionals args /\
  Forall (fun t => isFlagToken t = false) positionals.
Proof.
  intros classes flags positionals.
  assert (reorderArgs args = flags ++ positionals) as Heq.
  { rewrite reorderArgs_scan, scan_split. done. }
  assert (reorderArgs args ≡ₚ args) as Hperm.
  { rewrite Heq. apply pick_perm, classify_length. }
  split_and!; try done.
  - by rewrite Hperm.
  - apply pick_sublist.
  - apply pick_sublist.
  - apply pick_positional.
Qed.

(** C5. Argument Reorderer concrete instances: a boolean flag takes no
    value and a value-taking flag consumes the next token; a flag with an
    embedded [=] consumes no lookahead token. *)
Theorem reorderArgs_examples :
  reorderArgs ["ssh key"; "--debug"; "--size"; "5"]
    = ["--debug"; "--size"; "5"; "ssh key"] /\
  reorderArgs ["ssh key"; "--size=5"; "--debug"]
    = ["--size=5"; "--debug"; "ssh key"].
Proof. split; vm_compute; reflexivity. Qed.

End ReorderFacts.

(** ** The query parameters *)

Section ParamsFacts.

Import Params.

Lemma lookup_Set_ne (key key' value : string) (v : Values) :
  key <> key' -> Set_ key value v !! key' = v !! key'.
Proof. intros H. unfold Set_. by rewrite lookup_insert_ne. Qed.

Lemma lookup_Add_ne (key key' value : string) (v : Values) :
  key <> key' -> Add key value v !! key' = v !! key'.
Proof. intros H. unfold Add. by rewrite lookup_insert_ne. Qed.

Lemma values_Add (key value : string) (v : Values) :
  Add key value v !! key = Some (values key v ++ [value]).
Proof. unfold Add, values. by rewrite lookup_insert_eq. Qed.

Lemma lookup_AddEach_ne (key key' : string) (xs : list string) : forall v : Values,
  key <> key' -> AddEach key xs v !! key' = v !! key'.
Proof.
  unfold AddEach. induction xs as [|x xs IH]; intros v H; cbn; [done|].
  rewrite IH by done. by apply lookup_Add_ne.
Qed.

Lemma values_AddEach (key : string) (xs : list string) : forall v : Values,
  values key (AddEach key xs v) = values key v ++ xs.
Proof.
  unfold AddEach. induction xs as [|x xs IH]; intros v; cbn.
  - by rewrite app_nil_r.
  - rewrite IH. unfold values at 1. rewrite values_Add. cbn.
    by rewrite <- app_assoc.
Qed.

Lemma lookup_values (key : string) (v : Values) :
  is_Some (v !! key) -> v !! key = Some (values key v).
Proof. unfold values. by intros [l ->]. Qed.

Lemma is_Some_AddEach (key : string) (xs : list string) : forall v : Values,
  is_Some (v !! key) -> is_Some (AddEach key xs v !! key).
Proof.
  unfold AddEach. induction xs as [|x xs IH]; intros v H; cbn; [done|].
  apply IH. rewrite values_Add. eauto.
Qed.

Lemma lookup_AddEach (key : string) (xs : list string) (v : Values) :
  xs <> [] -> AddEach key xs v !! key = Some (values key v ++ xs).
Proof.
  intros Hne. rewrite <- values_AddEach. apply lookup_values.
  destruct xs as [|x xs]; [done|].
  change (AddEach key (x :: xs) v) with (AddEach key xs (Add key x v)).
  apply is_Some_AddEach. rewrite values_Add. eauto.
Qed.

(** The parameters before the [highlights] step have neither
    [highlights] nor [include]. *)
Ltac key_ne := let H := fresh in intros H; discriminate H.

Ltac skip_other_keys :=
  repeat first
    [ rewrite lookup_Set_ne by key_ne
    | rewrite lookup_Add_ne by key_ne
    | rewrite lookup_AddEach_ne by key_ne
    | case_decide
    | match goal with
      | |- context [if ?b then _ else _] =>
          match type of b with bool => destruct b eqn:? end
      end ].

Lemma empty_list_length {A} (l : list A) : length l = 0%nat <-> l = [].
Proof. destruct l; cbn; split; intros; (done || lia). Qed.

(** C2. Include-parameter derivation: with no include selector the
    request has the single include value "toplevel" when matched-content
    is set and the single include value "intro" when it is not; with one
    or more include selectors the include values are exactly those
    selectors, in the order given, whatever the matched-content flag. *)
Theorem include_parameter (o : Options) (query version : string) :
  buildParams o query version !! "include" =
  Some (match includes o with
        | [] => if includeMatchedContentFlag o then ["toplevel"] else ["intro"]
        | _ :: _ => includes o
        end).
Proof.
  unfold buildParams.
  set (p6 := if decide (sortFlag o = "") then _ else _).
  assert (p6 !! "include" = None) as H6.
  { subst p6. skip_other_keys; apply lookup_empty. }
  set (p7 := if decide (0 < length (highlights o))%nat then _ else _).
  assert (p7 !! "include" = None) as H7.
  { subst p7. by skip_other_keys. }
  set (p8 := if includeMatchedContentFlag o then Add "highlights" _ p7 else p7).
  assert (p8 !! "include" = None) as H8.
  { subst p8. by skip_other_keys. }
  clearbody p8. clear H7 p7 H6 p6.
  assert (values "include" p8 = []) as Hv by (unfold values; by rewrite H8).
  destruct (includes o) as [|inc rest] eqn:Hinc; cbn [length].
  - destruct (includeMatchedContentFlag o);
      skip_other_keys; try done; by rewrite values_Add, Hv.
  - skip_other_keys; try done; by rewrite lookup_AddEach, Hv.
Qed.

(** C3. Highlights-parameter derivation: the highlights values of the
    request are the caller's highlight selectors, in the order given and
    with their duplicates, followed by "content_explicit" when
    matched-content is set, whatever the number of selectors; the
    parameter is absent only when there is nothing to send. *)
Theorem highlights_parameter (o : Options) (query version : string) :
  let sent := highlights o ++
              (if includeMatchedContentFlag o then ["content_explicit"] else []) in
  values "highlights" (buildParams o query version) = sent /\
  buildParams o query version !! "highlights" =
    (match sent with [] => None | _ :: _ => Some sent end).
Proof.
  intros sent.
  assert (buildParams o query version !! "highlights" =
          match sent with [] => None | _ :: _ => Some sent end) as Hl.
  { unfold buildParams.
    set (p6 := if decide (sortFlag o = "") then _ else _).
    assert (p6 !! "highlights" = None) as H6.
    { subst p6. skip_other_keys; apply lookup_empty. }
    assert (values "highlights" p6 = []) as Hv6 by (unfold values; by rewrite H6).
    clearbody p6.
    set (p7 := if decide (0 < length (highlights o))%nat then _ else _).
    assert (p7 !! "highlights" =
            match highlights o with [] => None | _ :: _ => Some (highlights o) end
            /\ values "highlights" p7 = highlights o) as [H7 Hv7].
    { subst p7. destruct (highlights o) as [|h hs]; cbn [length].
      - case_decide; [lia|done].
      - case_decide; [|lia].
        by rewrite values_AddEach, lookup_AddEach, Hv6. }
    clearbody p7. subst sent.
    destruct (includeMatchedContentFlag o).
    - skip_other_keys; rewrite values_Add, Hv7;
        by destruct (highlights o).
    - rewrite app_nil_r. skip_other_keys; done. }
  split; [|done].
  unfold values. rewrite Hl. by destruct sent.
Qed.

End ParamsFacts.

(** ** The output of [main] *)

Section RenderFacts.

Import Render.

(** *** Sequencing *)

Lemma emit_andThen (ps : list print) (b : Out) :
  emit ps +> b = (ps ++ b.1, b.2).
Proof. done. Qed.

Lemma raise_andThen (p : panic) (b : Out) : raise p +> b = raise p.
Proof. done. Qed.

(** *** Counting entries *)

Lemma itemsShown_app (ps qs : list print) :
  itemsShown (ps ++ qs) = itemsShown ps + itemsShown qs.
Proof. unfold itemsShown. rewrite filter_app, length_app. lia. Qed.

Lemma hintPrinted_app (ps qs : list print) :
  hintPrinted (ps ++ qs) = hintPrinted ps ++ hintPrinted qs.
Proof. apply filter_app. Qed.

Lemma paginationPrinted_app (ps qs : list print) :
  paginationPrinted (ps ++ qs) = paginationPrinted ps ++ paginationPrinted qs.
Proof. apply filter_app. Qed.

(** The block of one item opens one item and belongs neither to the hint
    nor to the pagination section. *)
Lemma showItem_entries (o : Options) (renderer : option Renderer)
      (i : Z) (item : Api.SearchItem) :
  itemsShown (showItem o renderer i item) = 1 /\
  hintPrinted (showItem o renderer i item) = [] /\
  paginationPrinted (showItem o renderer i item) = [].
Proof.
  unfold showItem.
  destruct (usePrettyRendering o).
  - destruct renderer as [render|]; [destruct (render _)|]; done.
  - rewrite !itemsShown_app, !hintPrinted_app, !paginationPrinted_app.
    assert (forall l : list string,
      itemsShown ((fun str => PrintHighlight (cleanStr str)) <$> l) = 0 /\
      hintPrinted ((fun str => PrintHighlight (cleanStr str)) <$> l) = [] /\
      paginationPrinted ((fun str => PrintHighlight (cleanStr str)) <$> l) = [])
      as Hfr.
    { induction l as [|x l IH]; [done|].
      destruct IH as (H1 & H2 & H3). cbn.
      unfold itemsShown, hintPrinted, paginationPrinted in *.
      rewrite !filter_cons_False by (cbn; congruence). done. }
    destruct (Hfr (fragments item)) as (H1 & H2 & H3).
    destruct (includeMatchedContentFlag o); cbn [negb].
    + rewrite H1, H2, H3. done.
    + case_decide; done.
Qed.

(** *** The listing loop *)

Lemma listing_from (o : Options) (renderer : option Renderer)
      (hits : list Api.SearchItem) (todo : nat) : forall i : nat,
  (i + todo <= length hits)%nat ->
  listing o renderer hits i todo =
  emit (concat (imap (fun k item => showItem o renderer (Z.of_nat (i + k)) item)
                     (take todo (drop i hits)))).
Proof.
  induction todo as [|todo IH]; intros i Hlen; cbn [listing].
  - by rewrite take_0.
  - destruct (lookup_lt_is_Some_2 hits i ltac:(lia)) as [item Hitem].
    rewrite Hitem, (drop_S _ _ _ Hitem), IH by lia.
    rewrite emit_andThen. unfold emit. cbn [fst snd take imap concat].
    rewrite Nat.add_0_r. do 3 f_equal.
    apply imap_ext. intros k x _. cbn. do 2 f_equal. lia.
Qed.

(** The loop shows the first [n] hits and never indexes past the end. *)
Lemma listing_blocks (o : Options) (renderer : option Renderer)
      (hits : list Api.SearchItem) (n : nat) :
  (n <= length hits)%nat ->
  listing o renderer hits 0 n = emit (blocks o renderer hits n).
Proof. intros H. rewrite listing_from by lia. by rewrite drop_0. Qed.

Lemma concat_imap_entries (f : nat -> Api.SearchItem -> list print) :
  forall l : list Api.SearchItem,
  (forall i x, itemsShown (f i x) = 1 /\ hintPrinted (f i x) = [] /\
               paginationPrinted (f i x) = []) ->
  itemsShown (concat (imap f l)) = Z.of_nat (length l) /\
  hintPrinted (concat (imap f l)) = [] /\
  paginationPrinted (concat (imap f l)) = [].
Proof.
  intros l. revert f. induction l as [|x l IH]; intros f Hf; [done|].
  cbn [imap concat length].
  rewrite itemsShown_app, hintPrinted_app, paginationPrinted_app.
  destruct (Hf 0%nat x) as (-> & -> & ->).
  destruct (IH (f ∘ S)) as (-> & -> & ->); [intros; apply Hf|].
  split_and!; [lia|done|done].
Qed.

Lemma blocks_entries (o : Options) (renderer : option Renderer)
      (hits : list Api.SearchItem) (n : nat) :
  (n <= length hits)%nat ->
  itemsShown (blocks o renderer hits n) = Z.of_nat n /\
  hintPrinted (blocks o renderer hits n) = [] /\
  paginationPrinted (blocks o renderer hits n) = [].
Proof.
  intros Hn. unfold blocks.
  destruct (concat_imap_entries
              (fun i item => showItem o renderer (Z.of_nat i) item)
              (take n hits)) as (H1 & H2 & H3).
  { intros i x. apply showItem_entries. }
  rewrite H1, H2, H3, length_take_le by done. done.
Qed.

(** *** The count selected *)

Lemma maxResults_le (o : Options) (r : Api.SearchResult) :
  maxResults o r <= hitCount r.
Proof.
  unfold maxResults.
  destruct (includeMatchedContentFlag o); repeat case_bool_decide; cbn; lia.
Qed.

Lemma maxResults_preview (o : Options) (r : Api.SearchResult) :
  sizeFlag o = 5 -> hitCount r > 5 -> includeMatchedContentFlag o = false ->
  maxResults o r = 5.
Proof.
  intros H1 H2 H3. unfold maxResults.
  by rewrite H3, !bool_decide_eq_true_2 by done.
Qed.

Lemma maxResults_in_range (o : Options) (r : Api.SearchResult) :
  (Z.to_nat (maxResults o r) <= length (Api.Hits r))%nat.
Proof. pose proof (maxResults_le o r). unfold hitCount in *. lia. Qed.

(** *** The shape of the output *)

Lemma output_json (o : Options) (t : Terminal) (query : string)
      (r : Api.SearchResult) :
  formatFlag o = "json" -> output o t query r = emit [PrintJSON r].
Proof. intros H. unfold output. by rewrite decide_True. Qed.

Lemma output_none (o : Options) (t : Terminal) (query : string)
      (r : Api.SearchResult) :
  formatFlag o <> "json" -> found r = 0 ->
  output o t query r = emit [PrintNoResults query].
Proof.
  intros H1 H2. unfold output. by rewrite decide_False, decide_True.
Qed.

Lemma output_listing (o : Options) (t : Terminal) (query : string)
      (r : Api.SearchResult) :
  formatFlag o <> "json" -> found r <> 0 ->
  output o t query r =
  (header r ++
   blocks o (chooseRenderer o t) (Api.Hits r) (Z.to_nat (maxResults o r)) ++
   hint o r (maxResults o r) ++ (pagination r).1,
   (pagination r).2).
Proof.
  intros H1 H2. unfold output. rewrite !decide_False by done.
  rewrite listing_blocks by apply maxResults_in_range.
  by rewrite !emit_andThen.
Qed.

(** *** What each part of the output contributes *)

Lemma header_entries (r : Api.SearchResult) :
  itemsShown (header r) = 0 /\ hintPrinted (header r) = [] /\
  paginationPrinted (header r) = [].
Proof. unfold header. case_decide; done. Qed.

Lemma hint_entries (o : Options) (r : Api.SearchResult) (n : Z) :
  itemsShown (hint o r n) = 0 /\ hintPrinted (hint o r n) = hint o r n /\
  paginationPrinted (hint o r n) = [].
Proof.
  unfold hint.
  destruct (bool_decide (n = 5) && bool_decide (found r > 5)
            && negb (includeMatchedContentFlag o)); [|done].
  case_decide; done.
Qed.

Lemma pagination_entries (r : Api.SearchResult) :
  itemsShown (pagination r).1 = 0 /\ hintPrinted (pagination r).1 = [] /\
  paginationPrinted (pagination r).1 = (pagination r).1.
Proof.
  unfold pagination. destruct (totalPages r) as [tp|]; [|done].
  repeat case_decide; done.
Qed.

Lemma output_entries (o : Options) (t : Terminal) (query : string)
      (r : Api.SearchResult) :
  formatFlag o <> "json" -> found r <> 0 ->
  itemsShown (output o t query r).1 = Z.max 0 (maxResults o r) /\
  hintPrinted (output o t query r).1 = hint o r (maxResults o r) /\
  paginationPrinted (output o t query r).1 = (pagination r).1.
Proof.
  intros H1 H2. rewrite output_listing by done. cbn [fst].
  rewrite !itemsShown_app, !hintPrinted_app, !paginationPrinted_app.
  destruct (header_entries r) as (-> & -> & ->).
  destruct (blocks_entries o (chooseRenderer o t) (Api.Hits r)
              (Z.to_nat (maxResults o r)) (maxResults_in_range o r))
    as (-> & -> & ->).
  destruct (hint_entries o r (maxResults o r)) as (-> & -> & ->).
  destruct (pagination_entries r) as (-> & -> & ->).
  rewrite app_nil_r. split_and!; [lia|done|done].
Qed.

Lemma hint_spec (o : Options) (r : Api.SearchResult) (n : Z) :
  (n = 5 /\ found r > 5 /\ includeMatchedContentFlag o = false ->
   hint o r n = hintText r) /\
  (~ (n = 5 /\ found r > 5 /\ includeMatchedContentFlag o = false) ->
   hint o r n = []).
Proof.
  unfold hint, hintText. split.
  - intros (-> & H & ->). rewrite !bool_decide_eq_true_2 by done. done.
  - intros H. repeat case_bool_decide; destruct (includeMatchedContentFlag o);
      cbn; try done; exfalso; apply H; done.
Qed.

(** C1. Displayed-count selection: where the listing is reached (a
    format other than json, a found count other than zero) with a size
    that passed the size check, exactly 5 items are shown when the
    requested size is 5, more than 5 items were returned and
    matched-content is off; otherwise exactly size items when the size is
    less than the number of items returned; otherwise all the items
    returned.  The items shown are the first ones of the response, in
    order.  In the json format and with a found count of zero no item is
    listed. *)
Theorem displayed_count (o : Options) (t : Terminal) (query : string)
        (r : Api.SearchResult) :
  let preview :=
    sizeFlag o = 5 /\ hitCount r > 5 /\ includeMatchedContentFlag o = false in
  let shown := itemsShown (output o t query r).1 in
  (formatFlag o = "json" \/ found r = 0 -> shown = 0) /\
  (checkSize o = None -> formatFlag o <> "json" -> found r <> 0 ->
   (preview -> shown = 5) /\
   (~ preview -> sizeFlag o < hitCount r -> shown = sizeFlag o) /\
   (~ preview -> ~ sizeFlag o < hitCount r -> shown = hitCount r) /\
   exists before after,
     (output o t query r).1 =
     before ++ blocks o (chooseRenderer o t) (Api.Hits r) (Z.to_nat shown)
            ++ after /\
     itemsShown before = 0 /\ itemsShown after = 0).
Proof.
  intros preview shown. subst preview shown. split.
  { intros [Hjson|Hzero].
    - by rewrite output_json.
    - destruct (decide (formatFlag o = "json")) as [Hjson|Hjson].
      + by rewrite output_json.
      + by rewrite output_none. }
  intros Hsize Hfmt Hfound.
  assert (0 <= maxResults o r) as Hpos.
  { unfold checkSize in Hsize. repeat case_decide; try done.
    unfold maxResults, hitCount.
    destruct (includeMatchedContentFlag o); repeat case_bool_decide;
      cbn; lia. }
  destruct (output_entries o t query r Hfmt Hfound) as (Hshown & _ & _).
  assert (itemsShown (output o t query r).1 = maxResults o r) as -> by lia.
  split_and!.
  - intros (H1 & H2 & H3). by apply maxResults_preview.
  - intros Hp Hlt. unfold maxResults.
    destruct (includeMatchedContentFlag o); repeat case_bool_decide;
      cbn; try done; exfalso; apply Hp; done.
  - intros Hp Hlt. unfold maxResults.
    destruct (includeMatchedContentFlag o); repeat case_bool_decide;
      cbn; try done; exfalso; apply Hp; done.
  - exists (header r), (hint o r (maxResults o r) ++ (pagination r).1).
    rewrite output_listing by done. split_and!; [done|apply header_entries|].
    rewrite itemsShown_app.
    destruct (hint_entries o r (maxResults o r)) as (-> & _ & _).
    destruct (pagination_entries r) as (-> & _ & _). done.
Qed.

(** C6. More-results hint condition: the hint is printed if and only if
    exactly 5 items were shown, the found count is greater than 5 and
    matched-content is off, whether or not the size-5 preview cut
    anything; it then suggests [--size <found>] when the found count is
    at most 50 and [--size 50] with [--page] when it is more, and ends
    with the reminder of [--include-matched-content].  When the preview
    branch is taken and the found count is greater than 5, the hint is
    printed. *)
Theorem hint_condition (o : Options) (t : Terminal) (query : string)
        (r : Api.SearchResult) :
  let out := (output o t query r).1 in
  let shown := itemsShown out = 5 /\ found r > 5 /\
               includeMatchedContentFlag o = false in
  (hintPrinted out <> [] <-> shown) /\
  (shown -> hintPrinted out = hintText r) /\
  (hintText r =
   if decide (found r <= 50)
   then [PrintHintAll (found r); PrintHintMatched]
   else [PrintHintMax; PrintHintPage (found r); PrintHintMatched]) /\
  (Reading.previewBranch o r -> found r > 5 ->
   itemsShown out = 5 /\ hintPrinted out = hintText r).
Proof.
  intros out shown. subst out shown.
  assert (hintText r <> []) as Hne.
  { unfold hintText. case_decide; done. }
  destruct (decide (formatFlag o = "json")) as [Hjson|Hjson].
  { rewrite output_json by done. cbn.
    split_and!; [split; [done|intros (? & _); done] | intros (? & _); done | |].
    - unfold hintText. case_decide; done.
    - by intros (? & _). }
  destruct (decide (found r = 0)) as [Hzero|Hzero].
  { rewrite output_none by done. cbn.
    split_and!; [split; [done|intros (? & _); done] | intros (? & _); done | |].
    - unfold hintText. case_decide; done.
    - by intros (_ & ? & _). }
  destruct (output_entries o t query r Hjson Hzero) as (-> & -> & _).
  destruct (hint_spec o r (maxResults o r)) as [Hyes Hno].
  split_and!.
  - split.
    + intros Hh.
      destruct (decide (maxResults o r = 5 /\ found r > 5 /\
                        includeMatchedContentFlag o = false))
        as [(? & ? & ?)|Hc]; [split_and!; [lia|done|done]|].
      by rewrite Hno in Hh.
    + intros (H1 & H2 & H3). rewrite Hyes; [done|split_and!; [lia|done|done]].
  - intros (H1 & H2 & H3). apply Hyes. split_and!; [lia|done|done].
  - unfold hintText. case_decide; done.
  - intros (_ & _ & Hsize & Hhits & Hoff) Hfound.
    rewrite (maxResults_preview o r) in * by done.
    split; [done|]. by apply Hyes.
Qed.

(** *** Strings *)

Lemma length_append (s1 s2 : string) :
  String.length (s1 +:+ s2) = (String.length s1 + String.length s2)%nat.
Proof.
  induction s1 as [|c s1 IH]; [done|].
  change (S (String.length (s1 +:+ s2))
          = S (String.length s1 + String.length s2)).
  by rewrite IH.
Qed.

Lemma length_slice_to (s : string) : forall n : nat,
  (n <= String.length s)%nat -> String.length (slice_to s n) = n.
Proof.
  unfold slice_to. induction s as [|c s IH]; intros [|n] H; cbn in *;
    try done; try lia.
  rewrite IH; lia.
Qed.

Lemma slice_to_from (s : string) : forall n : nat,
  slice_to s n +:+ slice_from n s = s.
Proof.
  unfold slice_to. induction s as [|c s IH]; intros [|n]; try done.
  change (String c (String.substring 0 n s +:+ slice_from n s) = String c s).
  by rewrite IH.
Qed.

(** C7. Intro truncation: with matched-content off and a non-empty
    intro, the description shown is the intro itself when its length is
    at most 150 bytes, and otherwise its first 150 bytes followed by the
    three bytes "...", 153 bytes in all; this description is the line
    printed after the URL in plain output and the line of the markdown
    block in pretty output. *)
Theorem intro_truncation (o : Options) (renderer : option Renderer) (i : Z)
        (item : Api.SearchItem) :
  includeMatchedContentFlag o = false ->
  Api.Intro item <> "" ->
  let intro := Api.Intro item in
  let d := description intro in
  (len intro <= 150 -> d = intro) /\
  (len intro > 150 ->
   d = slice_to intro 150 +:+ "..." /\
   slice_to intro 150 +:+ slice_from 150 intro = intro /\
   len (slice_to intro 150) = 150 /\
   len d = 153) /\
  (len intro = 151 -> len d = 153) /\
  (usePrettyRendering o = false ->
   showItem o renderer i item =
   [PrintTitle (GoInt.add i 1) (Api.Title item);
    PrintURL (docsHost +:+ Api.URL item);
    PrintDescription d;
    PrintLn]) /\
  markdown o i item =
    (Itoa (GoInt.add i 1) +:+ ". " +:+ Api.Title item +:+ nl) +:+
    ("   " +:+ (docsHost +:+ Api.URL item) +:+ nl) +:+
    ("   " +:+ d +:+ nl) +:+ nl.
Proof.
  intros Hoff Hintro intro d. subst intro d.
  assert (len (Api.Intro item) > 150 ->
          description (Api.Intro item) = slice_to (Api.Intro item) 150 +:+ "..." /\
          len (description (Api.Intro item)) = 153) as Hlong.
  { intros H. unfold description. rewrite decide_True by done.
    split; [done|]. unfold len in *.
    rewrite length_append, length_slice_to by lia. cbn. lia. }
  split_and!.
  - intros H. unfold description. by rewrite decide_False by lia.
  - intros H. destruct (Hlong H) as [Hd Hlen].
    split_and!; [done|apply slice_to_from| |done].
    unfold len in *. rewrite length_slice_to by lia. done.
  - intros H. apply Hlong. lia.
  - intros Hplain. unfold showItem. rewrite Hplain, Hoff. cbn [negb].
    by rewrite decide_False by done.
  - unfold markdown. rewrite Hoff. cbn [negb].
    by rewrite decide_False by done.
Qed.

(** *** Pagination *)

Lemma ceilDiv_spec (a b : Z) :
  0 < b -> (ceilDiv a b - 1) * b < a <= ceilDiv a b * b.
Proof.
  intros Hb. unfold ceilDiv.
  pose proof (Z.div_mod (- a) b ltac:(lia)) as Hdm.
  pose proof (Z.mod_pos_bound (- a) b Hb) as Hm.
  nia.
Qed.

(** Go's expression is the ceiling when nothing wraps around. *)
Lemma totalPages_ceil (r : Api.SearchResult) :
  1 <= pageSize r -> 0 <= found r ->
  found r + pageSize r - 1 <= GoInt.maxInt ->
  totalPages r = Some (ceilDiv (found r) (pageSize r)).
Proof.
  intros Hs Hf Hmax. unfold totalPages, GoInt.div, GoInt.sub, GoInt.add.
  rewrite decide_False by lia. f_equal.
  replace (GoInt.wrap (found r + pageSize r) - 1)
    with (GoInt.wrap (found r + pageSize r) + (- 1)) by lia.
  rewrite wrap_add_l.
  assert (GoInt.minInt < 0) as Hmin by done.
  rewrite (wrap_inRange (found r + pageSize r + -1))
    by (unfold GoInt.inRange; lia).
  rewrite Z.quot_div_nonneg by lia.
  assert ((found r + pageSize r + -1) / pageSize r
          = ceilDiv (found r) (pageSize r)) as ->.
  { pose proof (ceilDiv_spec (found r) (pageSize r) ltac:(lia)).
    symmetry.
    apply (Z.div_unique_pos _ _ _
             (found r + pageSize r + -1
              - pageSize r * ceilDiv (found r) (pageSize r))); lia. }
  apply wrap_inRange. unfold GoInt.inRange.
  pose proof (ceilDiv_spec (found r) (pageSize r) ltac:(lia)). nia.
Qed.

(** The pagination section, given the total pages. *)
Lemma pagination_Some (r : Api.SearchResult) (tp : Z) :
  totalPages r = Some tp ->
  pagination r =
  emit (if decide (tp > 1)
        then PrintPagination (page r) tp (found r) ::
             (if decide (page r < tp)
              then [PrintNextPage (GoInt.add (page r) 1)] else [])
        else []).
Proof. intros H. unfold pagination. rewrite H. repeat case_decide; done. Qed.

Lemma elem_of_paginationPrinted (p : print) (ps : list print) :
  isPagination p = true -> (p ∈ ps <-> p ∈ paginationPrinted ps).
Proof.
  intros H. unfold paginationPrinted. rewrite list_elem_of_filter. tauto.
Qed.

(** Membership in a list given by its elements. *)
Ltac elem_cases :=
  repeat match goal with
         | H : _ ∈ [] |- _ => by apply elem_of_nil in H
         | H : _ ∈ _ :: _ |- _ =>
             apply elem_of_cons in H; destruct H as [H|H];
             [try discriminate H|]
         end.

(** With a page size of at least 1 the division is defined, and without
    results it gives no page. *)
Lemma totalPages_defined (r : Api.SearchResult) :
  1 <= pageSize r -> exists tp, totalPages r = Some tp.
Proof.
  intros Hs. unfold totalPages, GoInt.div.
  rewrite decide_False by lia. eauto.
Qed.

Lemma totalPages_none_found (r : Api.SearchResult) (tp : Z) :
  1 <= pageSize r -> found r = 0 -> totalPages r = Some tp -> tp <= 1.
Proof.
  intros Hs Hzero. unfold totalPages, GoInt.div, GoInt.sub, GoInt.add.
  rewrite decide_False by lia. intros [= <-]. rewrite Hzero.
  replace (GoInt.wrap (0 + pageSize r) - 1)
    with (GoInt.wrap (0 + pageSize r) + (- 1)) by lia.
  rewrite wrap_add_l.
  pose proof (wrap_range (0 + pageSize r + -1)) as Hw.
  set (w := GoInt.wrap (0 + pageSize r + -1)) in *.
  assert (GoInt.minInt = - 2 ^ 63 /\ GoInt.maxInt = 2 ^ 63 - 1) as [Hmin Hmax]
    by done.
  unfold GoInt.inRange in Hw.
  destruct (decide (pageSize r <= 2 ^ 63)) as [Hsmall|Hbig].
  - assert (w = pageSize r - 1) as ->.
    { subst w. rewrite wrap_inRange; [lia|]. unfold GoInt.inRange. lia. }
    rewrite Z.quot_small by lia. by rewrite wrap_inRange.
  - destruct (decide (0 <= w)) as [Hpos|Hneg].
    + rewrite Z.quot_small by lia. by rewrite wrap_inRange.
    + assert (w ÷ pageSize r = 0) as ->.
      { rewrite <- (Z.opp_involutive w), Z.quot_opp_l by lia.
        rewrite Z.quot_small by lia. done. }
      by rewrite wrap_inRange.
Qed.

(** C8. Pagination arithmetic: for every result set with a page size of
    at least 1, the computed total pages equal the integer ceiling of
    found / size when the found count is not negative and the sum
    found + size - 1 is within the range of [int]; in every format other
    than json the pagination line (current page, computed total pages,
    found count) is printed exactly when the computed total pages exceed
    1, and the next-page hint exactly when moreover the current page is
    less than the total pages; in the json format no pagination section
    is printed. *)
Theorem pagination_arithmetic (o : Options) (t : Terminal) (query : string)
        (r : Api.SearchResult) :
  1 <= pageSize r ->
  let out := (output o t query r).1 in
  (0 <= found r -> found r + pageSize r - 1 <= GoInt.maxInt ->
   totalPages r = Some (ceilDiv (found r) (pageSize r)) /\
   (ceilDiv (found r) (pageSize r) - 1) * pageSize r < found r
     <= ceilDiv (found r) (pageSize r) * pageSize r) /\
  exists tp,
    totalPages r = Some tp /\
    (formatFlag o <> "json" ->
     paginationPrinted out =
       (if decide (tp > 1)
        then PrintPagination (page r) tp (found r) ::
             (if decide (page r < tp)
              then [PrintNextPage (GoInt.add (page r) 1)] else [])
        else []) /\
     (PrintPagination (page r) tp (found r) ∈ out <-> tp > 1) /\
     (PrintNextPage (GoInt.add (page r) 1) ∈ out <-> tp > 1 /\ page r < tp)) /\
    (formatFlag o = "json" -> paginationPrinted out = []).
Proof.
  intros Hs out. split.
  { intros Hf Hmax. split; [by apply totalPages_ceil|].
    apply ceilDiv_spec. lia. }
  destruct (totalPages_defined r Hs) as [tp Htp].
  exists tp. split_and!; [done| |].
  2:{ intros Hjson. subst out. by rewrite output_json. }
  intros Hjson.
  assert (paginationPrinted out =
          if decide (tp > 1)
          then PrintPagination (page r) tp (found r) ::
               (if decide (page r < tp)
                then [PrintNextPage (GoInt.add (page r) 1)] else [])
          else []) as Hprinted.
  { subst out.
    destruct (decide (found r = 0)) as [Hzero|Hzero].
    { rewrite output_none by done.
      pose proof (totalPages_none_found r tp Hs Hzero Htp).
      by rewrite decide_False by lia. }
    destruct (output_entries o t query r Hjson Hzero) as (_ & _ & ->).
    by rewrite (pagination_Some r tp Htp). }
  split_and!; [done| |].
  - rewrite elem_of_paginationPrinted, Hprinted by done.
    repeat case_decide; rewrite ?elem_of_cons, ?elem_of_nil;
      split; intros; destruct_or?; destruct_and?;
      try done; try lia; try (left; done); try (right; left; done);
      elem_cases.
  - rewrite elem_of_paginationPrinted, Hprinted by done.
    repeat case_decide; rewrite ?elem_of_cons, ?elem_of_nil;
      split; intros; destruct_or?; destruct_and?;
      try done; try lia; try (left; done); try (right; left; done);
      elem_cases.
Qed.

(** *** No results, and the json format *)

(** C9. Zero-results behaviour: in a format other than json, a found
    count of zero makes the program print the single message "No results
    found for query: <query>" and return, with no item, no hint and no
    pagination section; in the json format the decoded result set is
    printed instead, whatever the found count. *)
Theorem no_results (o : Options) (t : Terminal) (query : string)
        (r : Api.SearchResult) (marshal : Api.SearchResult -> string) :
  found r = 0 ->
  (formatFlag o <> "json" ->
   output o t query r = ([PrintNoResults query], Returned) /\
   text marshal (PrintNoResults query)
     = "No results found for query: " +:+ query +:+ nl /\
   itemsShown (output o t query r).1 = 0 /\
   hintPrinted (output o t query r).1 = [] /\
   paginationPrinted (output o t query r).1 = []) /\
  (formatFlag o = "json" ->
   output o t query r = ([PrintJSON r], Returned)).
Proof.
  intros Hzero. split.
  - intros Hfmt. rewrite output_none by done. done.
  - intros Hfmt. by rewrite output_json.
Qed.

(** *** How [main] ends *)

Lemma pagination_outcome (r : Api.SearchResult) :
  (pageSize r = 0 -> (pagination r).2 = Panicked IntegerDivideByZero) /\
  (pageSize r <> 0 -> (pagination r).2 = Returned).
Proof.
  unfold pagination, totalPages, GoInt.div. split; intros H.
  - by rewrite decide_True.
  - rewrite decide_False by done. repeat case_decide; done.
Qed.

(** C10. The division of the total pages: with a page size of at least 1
    the output section returns; with a found count greater than 0 and a
    page size of 0, in a format other than json, the division by the
    page size panics.  This is the only panic of the output section, and
    these are the only runs where it happens (a found count other than 0
    and a page size of 0, in a format other than json). *)
Theorem total_pages_division (o : Options) (t : Terminal) (query : string)
        (r : Api.SearchResult) :
  (1 <= pageSize r -> (output o t query r).2 = Returned) /\
  (formatFlag o <> "json" -> found r > 0 -> pageSize r = 0 ->
   totalPages r = None /\
   (output o t query r).2 = Panicked IntegerDivideByZero) /\
  (forall p : panic,
   (output o t query r).2 = Panicked p <->
   p = IntegerDivideByZero /\ formatFlag o <> "json" /\ found r <> 0 /\
   pageSize r = 0).
Proof.
  destruct (pagination_outcome r) as [Hpanic Hok].
  assert (forall p : panic,
   (output o t query r).2 = Panicked p <->
   p = IntegerDivideByZero /\ formatFlag o <> "json" /\ found r <> 0 /\
   pageSize r = 0) as Hiff.
  { intros p.
    destruct (decide (formatFlag o = "json")) as [Hjson|Hjson].
    { rewrite output_json by done. cbn. split; [done|tauto]. }
    destruct (decide (found r = 0)) as [Hzero|Hzero].
    { rewrite output_none by done. cbn. split; [done|tauto]. }
    rewrite output_listing by done. cbn [snd].
    destruct (decide (pageSize r = 0)) as [Hsz|Hsz].
    - rewrite Hpanic by done. split; [|by intros (-> & _)].
      intros [= <-]. done.
    - rewrite Hok by done. split; [done|tauto]. }
  split_and!; [| |done].
  - intros Hs. destruct ((output o t query r).2) as [|p]; [done|].
    destruct (Hiff p) as [H _]. specialize (H eq_refl). lia.
  - intros Hfmt Hfound Hsz. split.
    + unfold totalPages. by apply div_None.
    + apply Hiff. split_and!; [done|done|lia|done].
Qed.

End RenderFacts.

(** ** The claims on sample runs *)

Section Runs.

Import Render Samples.

(** The marker pair is stripped from a fragment in plain output. *)
Example cleanStr_markers :
  cleanStr "Add an <mark>SSH</mark> <mark>key</mark>" = "Add an SSH key".
Proof. reflexivity. Qed.

(** The request of a run with the default flags. *)
Example default_request :
  (fun key => Params.buildParams defaults "ssh key" "free-pro-team" !! key)
    <$> ["query"; "size"; "version"; "language"; "include"; "page"; "highlights"]
  = [Some ["ssh key"]; Some ["5"]; Some ["free-pro-team"]; Some ["en"];
     Some ["intro"]; None; None].
Proof. vm_compute. reflexivity. Qed.

(** The count shown on the runs of section 8: 10 hits with the default
    size show 5, 3 hits show 3, 10 hits with size 3 show 3. *)
Lemma displayed_count_witness :
  itemsShown (output (withSize 5) dumb "ssh key" (response 10 5 1 10)).1 = 5 /\
  itemsShown (output (withSize 5) dumb "ssh key" (response 3 5 1 3)).1 = 3 /\
  itemsShown (output (withSize 3) dumb "ssh key" (response 10 3 1 10)).1 = 3.
Proof.
  split_and!.
  - destruct (displayed_count (withSize 5) dumb "ssh key" (response 10 5 1 10))
      as (_ & H).
    destruct H as (H1 & _); [reflexivity|discriminate|discriminate|].
    apply H1. vm_compute. split_and!; reflexivity.
  - destruct (displayed_count (withSize 5) dumb "ssh key" (response 3 5 1 3))
      as (_ & H).
    destruct H as (_ & _ & H3 & _); [reflexivity|discriminate|discriminate|].
    apply H3; vm_compute; [intros (_ & H & _); discriminate H|discriminate].
  - destruct (displayed_count (withSize 3) dumb "ssh key" (response 10 3 1 10))
      as (_ & H).
    destruct H as (_ & H2 & _); [reflexivity|discriminate|discriminate|].
    apply H2; vm_compute; [intros (H & _); discriminate H|reflexivity].
Defined.

(** Size 5, 10 hits, matched-content off, and yet no item is listed: in
    the json format, and when the found count is zero. *)
Lemma displayed_count_counterexample :
  (sizeFlag (withFormat "json") = 5 /\
   hitCount (response 10 5 1 10) > 5 /\
   includeMatchedContentFlag (withFormat "json") = false /\
   output (withFormat "json") dumb "ssh key" (response 10 5 1 10)
   = ([PrintJSON (response 10 5 1 10)], Returned) /\
   itemsShown (output (withFormat "json") dumb "ssh key" (response 10 5 1 10)).1
   = 0) /\
  (sizeFlag (withSize 5) = 5 /\
   hitCount (response 0 5 1 10) > 5 /\
   includeMatchedContentFlag (withSize 5) = false /\
   output (withSize 5) dumb "ssh key" (response 0 5 1 10)
   = ([PrintNoResults "ssh key"], Returned) /\
   itemsShown (output (withSize 5) dumb "ssh key" (response 0 5 1 10)).1 = 0).
Proof. split; split_and!; reflexivity. Qed.

(** The hint on the first run of section 8. *)
Lemma hint_condition_witness :
  hintPrinted (output (withSize 5) dumb "ssh key" (response 10 5 1 10)).1
  = [PrintHintAll 10; PrintHintMatched].
Proof.
  destruct (hint_condition (withSize 5) dumb "ssh key" (response 10 5 1 10))
    as (_ & H & _ & _).
  rewrite H; [reflexivity|].
  vm_compute. split_and!; reflexivity.
Defined.

(** The hint without the preview branch (size 7 with 5 hits; size 5 with
    exactly 5 hits), and the preview branch without the hint (a found
    count of 3). *)
Lemma hint_condition_counterexample :
  (sizeFlag (withSize 7) <> 5 /\
   hintPrinted (output (withSize 7) dumb "ssh key" (response 9 7 1 5)).1
   = [PrintHintAll 9; PrintHintMatched]) /\
  (~ hitCount (response 9 5 1 5) > 5 /\
   hintPrinted (output (withSize 5) dumb "ssh key" (response 9 5 1 5)).1
   = [PrintHintAll 9; PrintHintMatched]) /\
  (Reading.previewBranch (withSize 5) (response 3 5 1 10) /\
   itemsShown (output (withSize 5) dumb "ssh key" (response 3 5 1 10)).1 = 5 /\
   hintPrinted (output (withSize 5) dumb "ssh key" (response 3 5 1 10)).1 = []).
Proof.
  split_and!; try reflexivity; try discriminate.
  unfold Reading.previewBranch. split_and!; try reflexivity; discriminate.
Qed.

(** An intro of 150 bytes is shown as it is, one of 151 bytes as 153. *)
Lemma intro_truncation_witness :
  description (introOf 150) = introOf 150 /\
  len (description (introOf 151)) = 153.
Proof.
  split.
  - destruct (intro_truncation (withSize 5) None 0 (hit (introOf 150)))
      as (H & _); [reflexivity|discriminate|].
    apply H. vm_compute. discriminate.
  - destruct (intro_truncation (withSize 5) None 0 (hit (introOf 151)))
      as (_ & _ & H & _); [reflexivity|discriminate|].
    apply H. reflexivity.
Defined.

(** 22 results in pages of 5 make 5 pages. *)
Lemma pagination_arithmetic_witness :
  totalPages (response 22 5 1 5) = Some 5 /\
  paginationPrinted (output (withSize 5) dumb "ssh key" (response 22 5 1 5)).1
  = [PrintPagination 1 5 22; PrintNextPage 2].
Proof.
  pose proof (pagination_arithmetic (withSize 5) dumb "ssh key"
                (response 22 5 1 5)) as H.
  cbn zeta in H.
  destruct H as (Hceil & tp & Htp & Hprint & _); [vm_compute; discriminate|].
  destruct Hceil as [H1 _]; [vm_compute; discriminate|vm_compute; discriminate|].
  destruct Hprint as (H3 & _); [discriminate|].
  assert (tp = 5) as -> by (vm_compute in Htp; congruence).
  split; [exact H1 | exact H3].
Defined.

(** The ceiling fails for a negative found count and when the sum wraps
    around; the json format prints no pagination section whatever the
    total pages. *)
Lemma pagination_arithmetic_counterexample :
  (Api.decoded (response (-4) 3 1 0) /\ 1 <= pageSize (response (-4) 3 1 0) /\
   totalPages (response (-4) 3 1 0) = Some 0 /\ ceilDiv (-4) 3 = -1) /\
  (Api.decoded (response GoInt.maxInt 2 1 0) /\
   1 <= pageSize (response GoInt.maxInt 2 1 0) /\
   totalPages (response GoInt.maxInt 2 1 0) = Some (- 2 ^ 62) /\
   ceilDiv GoInt.maxInt 2 = 2 ^ 62) /\
  (Api.decoded (response 22 5 1 5) /\ 1 <= pageSize (response 22 5 1 5) /\
   totalPages (response 22 5 1 5) = Some 5 /\
   paginationPrinted
     (output (withFormat "json") dumb "ssh key" (response 22 5 1 5)).1 = []).
Proof.
  vm_compute. repeat split; try reflexivity; discriminate.
Qed.

(** No results for a query, in the default format. *)
Lemma no_results_witness :
  output (withFormat "pretty") dumb "ssh key" (response 0 5 1 0)
  = ([PrintNoResults "ssh key"], Returned).
Proof.
  destruct (no_results (withFormat "pretty") dumb "ssh key" (response 0 5 1 0)
                       (fun _ => ""))
    as [H _]; [reflexivity|].
  destruct H as (H & _); [discriminate|exact H].
Defined.

(** With no results the json format prints the result set, not the
    message. *)
Lemma no_results_counterexample :
  found (response 0 5 1 0) = 0 /\
  output (withFormat "json") dumb "ssh key" (response 0 5 1 0)
  = ([PrintJSON (response 0 5 1 0)], Returned) /\
  output (withFormat "json") dumb "ssh key" (response 0 5 1 0)
  <> ([PrintNoResults "ssh key"], Returned).
Proof. split_and!; [reflexivity|reflexivity|discriminate]. Qed.

(** A response without [meta.size] makes the plain format panic, one
    with a page size of 5 does not. *)
Lemma total_pages_division_witness :
  (output (withFormat "plain") dumb "ssh key" (response 3 0 1 3)).2
  = Panicked IntegerDivideByZero /\
  (output (withFormat "plain") dumb "ssh key" (response 3 5 1 3)).2 = Returned.
Proof.
  destruct (total_pages_division (withFormat "plain") dumb "ssh key"
                                 (response 3 0 1 3)) as (_ & H & _).
  destruct H as [_ H]; [discriminate|reflexivity|reflexivity|].
  destruct (total_pages_division (withFormat "plain") dumb "ssh key"
                                 (response 3 5 1 3)) as (H' & _).
  split; [exact H|apply H'; vm_compute; discriminate].
Defined.

End Runs.

(** ** More on the argument reorderer *)

Section ReorderMore.

Import Reorder.

(** Tokens that are not flag tokens all go to the positionals. *)
Lemma scan_positionals (query : list string) (rest : list string) :
  Forall (fun t => isFlagToken t = false) query ->
  scan (query ++ rest) = ((scan rest).1, query ++ (scan rest).2).
Proof.
  induction 1 as [|q query Hq _ IH]; cbn [app].
  - by destruct (scan rest).
  - rewrite scan_positional by done. by rewrite IH.
Qed.

Lemma scan_all_positional (query : list string) :
  Forall (fun t => isFlagToken t = false) query -> scan query = ([], query).
Proof.
  intros H. rewrite <- (app_nil_r query) at 1.
  rewrite scan_positionals by done. cbn. by rewrite app_nil_r.
Qed.

(** The flags group of a scan begins with the first token when that is
    a flag token. *)
Lemma scan_flag_head (arg : string) (rest : list string) :
  HasPrefix arg "-" = true ->
  exists flags, (scan (arg :: rest)).1 = arg :: flags.
Proof.
  intros H. cbn [scan]. rewrite H.
  destruct (Contains arg "=" || boolFlag arg).
  { destruct (scan rest); eauto. }
  destruct rest as [|next rest]; [eauto|].
  destruct (negb (HasPrefix next "-")).
  - destruct (scan rest); eauto.
  - destruct (scan (next :: rest)); eauto.
Qed.

(** Scanning the flags group of a scan finds flags only. *)
Lemma scan_flags_closed_le (n : nat) : forall args : list string,
  (length args <= n)%nat -> scan (scan args).1 = ((scan args).1, []).
Proof.
  induction n as [|n IH]; intros [|arg rest] Hlen; cbn in Hlen;
    try done; try lia.
  destruct (HasPrefix arg "-") eqn:Hdash.
  - destruct (Contains arg "=" || boolFlag arg) eqn:Hval.
    { rewrite (scan_flag_alone arg rest) by auto. cbn [fst].
      rewrite scan_flag_alone by auto. by rewrite IH by lia. }
    destruct rest as [|next rest'].
    { cbn [scan]. rewrite Hdash, Hval. cbn [fst scan]. by rewrite Hdash, Hval. }
    destruct (HasPrefix next "-") eqn:Hnd.
    + rewrite (scan_flag_alone arg) by auto. cbn [fst].
      destruct (scan_flag_head next rest' Hnd) as [flags Hflags].
      pose proof (IH (next :: rest') ltac:(cbn in Hlen |- *; lia)) as IHrest.
      rewrite Hflags in *.
      rewrite scan_flag_alone by auto. by rewrite IHrest.
    + rewrite (scan_flag_value arg next) by done. cbn [fst].
      rewrite scan_flag_value by done.
      by rewrite IH by (cbn in Hlen; lia).
  - rewrite scan_positional by done. cbn [fst]. apply IH. lia.
Qed.

Lemma closed_tail (pre : list string) (p : list string * list string)
      (l : list string) :
  (pre ++ p.1, p.2) = (pre ++ l, []) -> p = (l, []).
Proof.
  destruct p as [a b]. cbn. intros [= H ->]. by apply app_inv_head in H as ->.
Qed.

(** Appending positionals to a list of flags only: the scan may hand the
    first of them to the last flag, and keeps the order of the whole. *)
Lemma scan_closed_app_le (n : nat) : forall flags query : list string,
  (length flags <= n)%nat ->
  scan flags = (flags, []) ->
  Forall (fun t => isFlagToken t = false) query ->
  (scan (flags ++ query)).1 ++ (scan (flags ++ query)).2 = flags ++ query.
Proof.
  induction n as [|n IH]; intros [|arg rest] query Hlen Hclosed Hquery;
    cbn in Hlen; try lia.
  - cbn [app]. by rewrite scan_all_positional.
  - cbn [app]. by rewrite scan_all_positional.
  - destruct (HasPrefix arg "-") eqn:Hdash.
    2:{ rewrite scan_positional in Hclosed by done. by inversion Hclosed. }
    cbn [app].
    destruct (Contains arg "=" || boolFlag arg) eqn:Hval.
    { rewrite scan_flag_alone in Hclosed by auto.
      rewrite scan_flag_alone by auto. cbn [fst snd app]. f_equal.
      apply IH; [lia| |done].
      by apply (closed_tail [arg]) in Hclosed. }
    destruct rest as [|next rest'].
    { cbn [app]. destruct Hquery as [|q query Hq Hquery]; [by rewrite Hclosed|].
      rewrite scan_flag_value by done. cbn [fst snd].
      by rewrite scan_all_positional. }
    destruct (HasPrefix next "-") eqn:Hnd.
    + rewrite scan_flag_alone in Hclosed by auto.
      cbn [app]. rewrite scan_flag_alone by auto. cbn [fst snd app]. f_equal.
      apply (IH (next :: rest')); [cbn in Hlen |- *; lia| |done].
      by apply (closed_tail [arg]) in Hclosed.
    + rewrite scan_flag_value in Hclosed by done.
      cbn [app]. rewrite scan_flag_value by done. cbn [fst snd app].
      do 2 f_equal.
      apply IH; [cbn in Hlen; lia| |done].
      by apply (closed_tail [arg; next]) in Hclosed.
Qed.

(** X1. Reordering twice is the same as reordering once. *)
Theorem reorderArgs_idempotent (args : list string) :
  reorderArgs (reorderArgs args) = reorderArgs args.
Proof.
  rewrite !reorderArgs_scan.
  apply (scan_closed_app_le (length (scan args).1)); [done| |].
  - apply (scan_flags_closed_le (length args)). done.
  - rewrite scan_split. apply pick_positional.
Qed.

(** A sequence whose tokens all belong to the flags group is its own
    flags group. *)
Lemma pick_all (classes : list bool) : forall tokens : list string,
  length classes = length tokens ->
  pick false classes tokens = [] -> pick true classes tokens = tokens.
Proof.
  induction classes as [|k classes IH]; intros [|t tokens] Hlen Hnone;
    cbn in *; try done.
  destruct k; cbn in *; [|done]. f_equal. apply IH; [lia|done].
Qed.

(** X2. Arguments without any flag token are returned as they are; in
    particular no argument gives no argument. *)
Theorem reorderArgs_no_flags (args : list string) :
  Forall (fun t => isFlagToken t = false) args ->
  reorderArgs args = args.
Proof.
  intros H. rewrite reorderArgs_scan. by rewrite scan_all_positional.
Qed.

(** X3. Query words given before the flags are moved behind the flags
    group of the rest and in front of its positionals; when the rest is
    made of flags and their values only, the result is the rest followed
    by the query words. *)
Theorem reorderArgs_query_first (query rest : list string) :
  Forall (fun t => isFlagToken t = false) query ->
  reorderArgs (query ++ rest)
    = (splitByClass rest).1 ++ query ++ (splitByClass rest).2 /\
  ((splitByClass rest).2 = [] -> reorderArgs (query ++ rest) = rest ++ query).
Proof.
  intros Hq.
  assert (reorderArgs (query ++ rest)
          = (splitByClass rest).1 ++ query ++ (splitByClass rest).2) as Heq.
  { rewrite reorderArgs_scan, scan_positionals by done.
    by rewrite scan_split. }
  split; [done|].
  intros Hnone. rewrite Heq, Hnone, app_nil_r. f_equal.
  unfold splitByClass in *. cbn [fst snd] in *.
  apply pick_all; [apply classify_length|done].
Qed.

(** X4. A value-taking flag given last, without its value, behind the
    query words: the reordered arguments are the flag followed by the
    query words, and there the first query word stands as the value of
    the flag. *)
Theorem reorderArgs_trailing_flag (q : string) (query : list string) (f : string) :
  valueTaking f = true ->
  Forall (fun t => isFlagToken t = false) (q :: query) ->
  reorderArgs ((q :: query) ++ [f]) = f :: q :: query /\
  splitByClass (f :: q :: query) = ([f; q], query).
Proof.
  intros Hf Hq.
  assert (HasPrefix f "-" = true /\ Contains f "=" || boolFlag f = false)
    as [Hdash Hval].
  { unfold valueTaking, isFlagToken in Hf.
    destruct (HasPrefix f "-"), (Contains f "="), (boolFlag f); done. }
  split.
  - rewrite reorderArgs_scan, scan_positionals by done.
    cbn [scan]. rewrite Hdash, Hval. cbn. by rewrite app_nil_r.
  - rewrite <- scan_split. inversion Hq as [|? ? Hq1 Hq2]; subst.
    rewrite scan_flag_value by done.
    by rewrite scan_all_positional.
Qed.

End ReorderMore.

(** ** More on the query parameters *)

Section ParamsMore.

Import Params.

Ltac other_key := let H := fresh in intros H; discriminate H.

Ltac past_other_keys :=
  repeat first
    [ rewrite lookup_Set_ne by other_key
    | rewrite lookup_Add_ne by other_key
    | rewrite lookup_AddEach_ne by other_key
    | case_decide
    | match goal with
      | |- context [if ?b then _ else _] =>
          match type of b with bool => destruct b eqn:? end
      end ].

Ltac at_key :=
  past_other_keys;
  try (unfold Set_; rewrite lookup_insert_eq);
  try apply lookup_empty; try done.

(** X5. The request always carries exactly one value for each of query,
    size, version and language: the resolved query, the size in decimal,
    the normalized version and the language flag; no later step changes
    them. *)
Theorem required_parameters (o : Options) (query version : string) :
  buildParams o query version !! "query" = Some [query] /\
  buildParams o query version !! "size" = Some [Itoa (sizeFlag o)] /\
  buildParams o query version !! "version" = Some [version] /\
  buildParams o query version !! "language" = Some [languageFlag o].
Proof. unfold buildParams. split_and!; at_key. Qed.

(** X6. The page parameter is sent, with the page in decimal, exactly
    when the page flag is positive, and the sort parameter exactly when
    the sort flag is not empty. *)
Theorem optional_parameters (o : Options) (query version : string) :
  buildParams o query version !! "page"
    = (if decide (pageFlag o > 0) then Some [Itoa (pageFlag o)] else None) /\
  buildParams o query version !! "sort"
    = (if decide (sortFlag o = "") then None else Some [sortFlag o]).
Proof.
  unfold buildParams. split.
  - destruct (decide (pageFlag o > 0)); at_key.
  - destruct (decide (sortFlag o = "")); at_key.
Qed.

(** The value lists of a key that only one [AddEach] step touches. *)
Lemma guarded_AddEach (key : string) (xs : list string) (v : Values) :
  v !! key = None ->
  (if decide (0 < length xs)%nat then AddEach key xs v else v) !! key
  = match xs with [] => None | _ :: _ => Some xs end.
Proof.
  intros Hnone. destruct xs as [|x xs]; cbn [length].
  - by rewrite decide_False by lia.
  - rewrite decide_True by lia. rewrite lookup_AddEach by done.
    unfold values. by rewrite Hnone.
Qed.

(** X7. The toplevel and aggregate parameters carry the values of their
    flags, in the order given and with their duplicates, and are absent
    when the flag was not given. *)
Theorem filter_parameters (o : Options) (query version : string) :
  buildParams o query version !! "toplevel"
    = match toplevel o with [] => None | _ :: _ => Some (toplevel o) end /\
  buildParams o query version !! "aggregate"
    = match aggregate o with [] => None | _ :: _ => Some (aggregate o) end.
Proof.
  unfold buildParams. split.
  - set (p9 := if decide (length (includes o) = 0%nat) then _ else _).
    assert (p9 !! "toplevel" = None) as H9 by (subst p9; at_key).
    clearbody p9.
    pose proof (guarded_AddEach "toplevel" (toplevel o) p9 H9) as Ht.
    destruct (decide (0 < length (aggregate o))%nat).
    + by rewrite lookup_AddEach_ne by other_key.
    + done.
  - set (p10 := if decide (0 < length (toplevel o))%nat then _ else _).
    assert (p10 !! "aggregate" = None) as H10 by (subst p10; at_key).
    clearbody p10. by apply guarded_AddEach.
Qed.

(** The ten parameter names of the search API that [main] uses. *)
Lemma lookup_AddEach_None (key key' : string) (xs : list string) (v : Values) :
  key <> key' -> v !! key' = None ->
  (if decide (0 < length xs)%nat then AddEach key xs v else v) !! key' = None.
Proof. intros Hne Hv. case_decide; [by rewrite lookup_AddEach_ne|done]. Qed.

(** X8. The request has no parameter besides query, size, version,
    language, page, sort, highlights, include, toplevel and aggregate. *)
Theorem no_other_parameter (o : Options) (query version key : string) :
  is_Some (buildParams o query version !! key) ->
  key ∈ ["query"; "size"; "version"; "language"; "page"; "sort";
         "highlights"; "include"; "toplevel"; "aggregate"].
Proof.
  intros Hsome.
  destruct (decide (key ∈ ["query"; "size"; "version"; "language"; "page";
                           "sort"; "highlights"; "include"; "toplevel";
                           "aggregate"])) as [|Hnot]; [done|].
  exfalso. revert Hsome.
  assert (forall k : string,
            k ∈ ["query"; "size"; "version"; "language"; "page"; "sort";
                 "highlights"; "include"; "toplevel"; "aggregate"] ->
            k <> key) as Hne.
  { intros k Hk ->. done. }
  assert (buildParams o query version !! key = None) as ->;
    [|by intros [? ?]].
  unfold buildParams.
  repeat first
    [ rewrite lookup_Set_ne by (apply Hne; set_solver)
    | rewrite lookup_Add_ne by (apply Hne; set_solver)
    | rewrite lookup_AddEach_ne by (apply Hne; set_solver)
    | case_decide
    | match goal with
      | |- context [if ?b then _ else _] =>
          match type of b with bool => destruct b eqn:? end
      end ];
    apply lookup_empty.
Qed.

End ParamsMore.

(** ** More on the output of [main] *)

Section RenderMore.

Import Render Reading.

Ltac elems :=
  repeat match goal with
         | H : _ ∈ [] |- _ => by apply elem_of_nil in H
         | H : _ ∈ _ :: _ |- _ =>
             apply elem_of_cons in H; destruct H as [H|H];
             [try discriminate H|]
         | H : _ ∈ _ ++ _ |- _ => apply elem_of_app in H; destruct H as [H|H]
         end.

(** X9. The count selected is always the smaller of the requested size
    and the number of items returned: the preview case is the case
    "size less than hitCount" at size 5, and the matched-content flag
    has no influence on the count. *)
Theorem maxResults_min (o : Options) (r : Api.SearchResult) :
  maxResults o r = Z.min (sizeFlag o) (hitCount r).
Proof.
  unfold maxResults.
  destruct (includeMatchedContentFlag o); repeat case_bool_decide; cbn; lia.
Qed.

(** X10. The styling engine matters only to pretty rendering: with
    [--plain], with the plain format or with the json format the output
    is the same on every terminal. *)
Theorem output_without_styling (o : Options) (t1 t2 : Terminal)
        (query : string) (r : Api.SearchResult) :
  usePrettyRendering o = false \/ formatFlag o = "json" ->
  output o t1 query r = output o t2 query r.
Proof.
  intros [Hplain|Hjson].
  - unfold output, chooseRenderer. by rewrite Hplain.
  - by rewrite !output_json.
Qed.

Lemma length_concat_imap (f g : nat -> Api.SearchItem -> list print) :
  forall l : list Api.SearchItem,
  (forall i x, length (f i x) = length (g i x)) ->
  length (concat (imap f l)) = length (concat (imap g l)).
Proof.
  intros l. revert f g. induction l as [|x l IH]; intros f g Hfg; [done|].
  cbn [imap concat]. rewrite !length_app, Hfg. f_equal.
  apply IH. intros i y. apply Hfg.
Qed.

Lemma length_showItem (o : Options) (r1 r2 : option Renderer) (i : Z)
      (item : Api.SearchItem) :
  length (showItem o r1 i item) = length (showItem o r2 i item).
Proof.
  unfold showItem. destruct (usePrettyRendering o); [|done].
  destruct r1 as [r1|], r2 as [r2|];
    try destruct (r1 _); try destruct (r2 _); done.
Qed.

(** X11. Whatever the styling engine does (absent, failing on some
    items, or working), the run ends the same way and shows as many
    items, the same hint and the same pagination section. *)
Theorem output_styling_independent (o : Options) (t1 t2 : Terminal)
        (query : string) (r : Api.SearchResult) :
  (output o t1 query r).2 = (output o t2 query r).2 /\
  itemsShown (output o t1 query r).1 = itemsShown (output o t2 query r).1 /\
  hintPrinted (output o t1 query r).1 = hintPrinted (output o t2 query r).1 /\
  paginationPrinted (output o t1 query r).1
    = paginationPrinted (output o t2 query r).1 /\
  length (output o t1 query r).1 = length (output o t2 query r).1.
Proof.
  destruct (decide (formatFlag o = "json")) as [Hjson|Hjson].
  { by rewrite !output_json. }
  destruct (decide (found r = 0)) as [Hzero|Hzero].
  { by rewrite !output_none. }
  destruct (output_entries o t1 query r Hjson Hzero) as (-> & -> & ->).
  destruct (output_entries o t2 query r Hjson Hzero) as (-> & -> & ->).
  rewrite !output_listing by done. cbn [fst snd].
  split_and!; try done.
  rewrite !length_app. do 2 f_equal.
  unfold blocks. apply length_concat_imap. intros i x. apply length_showItem.
Qed.

(** *** Where the entries of the listing come from *)

Lemma elem_of_concat_imap (f : nat -> Api.SearchItem -> list print) (p : print) :
  forall l : list Api.SearchItem,
  p ∈ concat (imap f l) -> exists i x, l !! i = Some x /\ p ∈ f i x.
Proof.
  intros l. revert f. induction l as [|x l IH]; intros f Hp; cbn in Hp.
  - by apply elem_of_nil in Hp.
  - apply elem_of_app in Hp as [Hp|Hp].
    + exists 0%nat, x. done.
    + destruct (IH _ Hp) as (i & y & Hi & Hy). exists (S i), y. done.
Qed.

Lemma elem_of_blocks (o : Options) (renderer : option Renderer)
      (hits : list Api.SearchItem) (n : nat) (p : print) :
  p ∈ blocks o renderer hits n ->
  exists i item, (i < n)%nat /\ hits !! i = Some item /\
                 p ∈ showItem o renderer (Z.of_nat i) item.
Proof.
  intros Hp. apply elem_of_concat_imap in Hp as (i & item & Hi & Hp).
  apply lookup_take_Some in Hi as [Hi Hlt]. eauto.
Qed.

(** The entries outside the listing are neither descriptions nor
    highlights. *)
Lemma around_listing (o : Options) (r : Api.SearchResult) (n : Z) (p : print) :
  p ∈ header r \/ p ∈ hint o r n \/ p ∈ (pagination r).1 ->
  match p with PrintDescription _ | PrintHighlight _ | PrintTitle _ _ => False
          | _ => True end.
Proof.
  unfold header, hint, pagination.
  destruct (includeMatchedContentFlag o), (totalPages r);
    intros [Hp|[Hp|Hp]]; revert Hp;
    repeat first [case_decide | case_bool_decide];
    cbn; intros Hp; elems; subst; done.
Qed.

(** X12. Descriptions and highlights exclude each other, in plain and in
    pretty output.  Description and highlight lines of their own are
    printed by plain output only: a description line only with
    matched-content off, for an item of the response with a non-empty
    intro, as the truncated intro of that item; a highlight line only
    with matched-content on, as a fragment of an item of the response
    with the marker pair removed.  In pretty output an item is one entry,
    the styled text of its markdown block or the block itself; after the
    title and the URL the block holds the fragment lines, markers kept,
    when matched-content is on, and the truncated intro line, if the
    intro is not empty, when it is off. *)
Theorem description_or_highlights (o : Options) (t : Terminal) (query : string)
        (r : Api.SearchResult) :
  (forall d, PrintDescription d ∈ (output o t query r).1 ->
     usePrettyRendering o = false /\
     includeMatchedContentFlag o = false /\
     exists item, item ∈ Api.Hits r /\ Api.Intro item <> "" /\
                  d = description (Api.Intro item)) /\
  (forall h, PrintHighlight h ∈ (output o t query r).1 ->
     usePrettyRendering o = false /\
     includeMatchedContentFlag o = true /\
     exists item str, item ∈ Api.Hits r /\ str ∈ fragments item /\
                      h = cleanStr str) /\
  (usePrettyRendering o = true ->
   forall renderer i item,
     showItem o renderer i item = [PrintMarkdown (markdown o i item)] \/
     exists render styled,
       renderer = Some render /\ render (markdown o i item) = Some styled /\
       showItem o renderer i item = [PrintRendered styled]) /\
  (forall i item,
     markdown o i item =
       (Itoa (GoInt.add i 1) +:+ ". " +:+ Api.Title item +:+ nl) +:+
       ("   " +:+ (docsHost +:+ Api.URL item) +:+ nl) +:+
       (if includeMatchedContentFlag o
        then foldr (fun str acc => ("   • " +:+ str +:+ nl) +:+ acc) ""
                   (fragments item)
        else if decide (Api.Intro item = "") then ""
             else "   " +:+ description (Api.Intro item) +:+ nl) +:+
       nl).
Proof.
  assert (forall p, p ∈ (output o t query r).1 ->
            match p with PrintDescription _ | PrintHighlight _ => True
                    | _ => False end ->
            exists i item, Api.Hits r !! i = Some item /\
              p ∈ showItem o (chooseRenderer o t) (Z.of_nat i) item) as Hin.
  { intros p Hp Hkind.
    destruct (decide (formatFlag o = "json")) as [Hjson|Hjson].
    { rewrite output_json in Hp by done. cbn in Hp. elems. by subst. }
    destruct (decide (found r = 0)) as [Hzero|Hzero].
    { rewrite output_none in Hp by done. cbn in Hp. elems. by subst. }
    rewrite output_listing in Hp by done. cbn [fst] in Hp.
    apply elem_of_app in Hp as [Hp|Hp].
    { pose proof (around_listing o r 0 p (or_introl Hp)). by destruct p. }
    apply elem_of_app in Hp as [Hp|Hp].
    { apply elem_of_blocks in Hp as (i & item & _ & Hi & Hp). eauto. }
    apply elem_of_app in Hp as [Hp|Hp].
    - pose proof (around_listing o r _ p (or_intror (or_introl Hp))).
      by destruct p.
    - pose proof (around_listing o r 0 p (or_intror (or_intror Hp))).
      by destruct p. }
  split_and!.
  - intros d Hd. destruct (Hin _ Hd I) as (i & item & Hi & Hp).
    unfold showItem in Hp.
    destruct (usePrettyRendering o).
    { destruct (chooseRenderer o t) as [render|];
        [destruct (render _)|]; elems. }
    split; [done|].
    destruct (includeMatchedContentFlag o); cbn [negb] in Hp.
    + elems. apply list_elem_of_fmap in Hp as (? & ? & _). done.
    + split; [done|]. case_decide; elems.
      injection Hp as ->. exists item. split_and!; try done.
      by apply list_elem_of_lookup_2 in Hi.
  - intros h Hh. destruct (Hin _ Hh I) as (i & item & Hi & Hp).
    unfold showItem in Hp.
    destruct (usePrettyRendering o).
    { destruct (chooseRenderer o t) as [render|];
        [destruct (render _)|]; elems. }
    split; [done|].
    destruct (includeMatchedContentFlag o); cbn [negb] in Hp.
    + split; [done|]. elems.
      apply list_elem_of_fmap in Hp as (str & Hstr & Hfrag).
      injection Hstr as ->. exists item, str. split_and!; try done.
      by apply list_elem_of_lookup_2 in Hi.
    + case_decide; elems.
  - intros Hpretty renderer i item. unfold showItem. rewrite Hpretty.
    destruct renderer as [render|]; [|by left].
    destruct (render (markdown o i item)) as [styled|] eqn:Hrender;
      [|by left].
    right. exists render, styled. done.
  - intros i item. unfold markdown.
    destruct (includeMatchedContentFlag o); cbn [negb]; [done|].
    by case_decide.
Qed.

(** *** The numbering of plain output *)

Lemma titles_app (ps qs : list print) : titles (ps ++ qs) = titles ps ++ titles qs.
Proof. apply omap_app. Qed.

Lemma titles_around (o : Options) (r : Api.SearchResult) (n : Z) :
  titles (header r) = [] /\ titles (hint o r n) = [] /\
  titles (pagination r).1 = [].
Proof.
  unfold header, hint, pagination.
  destruct (includeMatchedContentFlag o), (totalPages r);
    repeat first [case_decide | case_bool_decide]; done.
Qed.

Lemma titles_concat_imap (f : nat -> Api.SearchItem -> list print)
      (g : nat -> Api.SearchItem -> Z * string) :
  forall l : list Api.SearchItem,
  (forall i x, l !! i = Some x -> titles (f i x) = [g i x]) ->
  titles (concat (imap f l)) = imap g l.
Proof.
  intros l. revert f g. induction l as [|x l IH]; intros f g Hfg; [done|].
  cbn [imap concat]. rewrite titles_app, (Hfg 0%nat x) by done. cbn. f_equal.
  apply IH. intros i y Hi. by apply Hfg.
Qed.

Lemma titles_highlights (l : list string) :
  titles ((fun str => PrintHighlight (cleanStr str)) <$> l) = [].
Proof. induction l; done. Qed.

Lemma titles_showItem (o : Options) (renderer : option Renderer) (i : Z)
      (item : Api.SearchItem) :
  usePrettyRendering o = false ->
  titles (showItem o renderer i item) = [(GoInt.add i 1, Api.Title item)].
Proof.
  intros Hplain. unfold showItem. rewrite Hplain.
  rewrite (titles_app [_; _]), !titles_app.
  destruct (includeMatchedContentFlag o); cbn [negb].
  - by rewrite titles_highlights.
  - case_decide; done.
Qed.

(** X13. In plain output the items are numbered from 1 in the order of
    the response: the numbered titles printed are (1, title of the first
    hit), (2, title of the second hit), and so on for the items shown. *)
Theorem plain_numbering (o : Options) (t : Terminal) (query : string)
        (r : Api.SearchResult) :
  usePrettyRendering o = false ->
  formatFlag o <> "json" ->
  found r <> 0 ->
  GoInt.inRange (hitCount r) ->
  titles (output o t query r).1
  = imap (fun i item => (Z.of_nat i + 1, Api.Title item))
         (take (Z.to_nat (maxResults o r)) (Api.Hits r)).
Proof.
  intros Hplain Hjson Hzero Hrange.
  rewrite output_listing by done. cbn [fst]. rewrite !titles_app.
  destruct (titles_around o r (maxResults o r)) as (-> & -> & ->).
  rewrite !app_nil_r. cbn [app]. unfold blocks.
  apply titles_concat_imap. intros i item Hi.
  apply lookup_take_Some in Hi as [Hi _].
  apply lookup_lt_Some in Hi.
  rewrite titles_showItem by done.
  do 2 f_equal. unfold GoInt.add. apply wrap_inRange.
  unfold GoInt.inRange, hitCount in *.
  assert (GoInt.minInt < 0) by done. lia.
Qed.

(** *** The hint and the size check *)

(** X14. The size the hint suggests is one the size check accepts: the
    hint names [--size <found>] only for a found count from 6 to 50, and
    names [--size 50] only for a found count above 50, which the size
    check would refuse. *)
Theorem hint_suggests_valid_size (o o' : Options) (t : Terminal) (query : string)
        (r : Api.SearchResult) :
  (forall n, PrintHintAll n ∈ (output o t query r).1 ->
     n = found r /\ 5 < n <= 50 /\ (sizeFlag o' = n -> checkSize o' = None)) /\
  (PrintHintMax ∈ (output o t query r).1 ->
     found r > 50 /\ (sizeFlag o' = found r -> checkSize o' <> None) /\
     (sizeFlag o' = 50 -> checkSize o' = None)).
Proof.
  assert (forall p, isHint p = true -> p ∈ (output o t query r).1 ->
            formatFlag o <> "json" /\ found r <> 0 /\
            p ∈ hint o r (maxResults o r)) as Hin.
  { intros p Hp Hout.
    destruct (decide (formatFlag o = "json")) as [Hjson|Hjson].
    { rewrite output_json in Hout by done. cbn in Hout. elems. by subst. }
    destruct (decide (found r = 0)) as [Hzero|Hzero].
    { rewrite output_none in Hout by done. cbn in Hout. elems. by subst. }
    split_and!; [done|done|].
    destruct (output_entries o t query r Hjson Hzero) as (_ & <- & _).
    unfold hintPrinted. apply list_elem_of_filter. done. }
  split.
  - intros n Hn. destruct (Hin (PrintHintAll n) eq_refl Hn) as (_ & _ & Hh).
    unfold hint in Hh.
    destruct (bool_decide (maxResults o r = 5)); [|cbn in Hh; elems].
    case_bool_decide; [|cbn in Hh; elems].
    destruct (includeMatchedContentFlag o); cbn in Hh; [elems|].
    case_decide; cbn in Hh; elems.
    injection Hh as ->. split_and!; try lia.
    intros Hs. unfold checkSize. rewrite Hs.
    by rewrite !decide_False by lia.
  - intros Hm. destruct (Hin PrintHintMax eq_refl Hm) as (_ & _ & Hh).
    unfold hint in Hh.
    destruct (bool_decide (maxResults o r = 5)); [|cbn in Hh; elems].
    case_bool_decide; [|cbn in Hh; elems].
    destruct (includeMatchedContentFlag o); cbn in Hh; [elems|].
    case_decide; cbn in Hh; elems.
    split_and!; [lia| |].
    + intros Hs. unfold checkSize. rewrite Hs. by rewrite decide_True by lia.
    + intros Hs. unfold checkSize. rewrite Hs.
      by rewrite !decide_False by lia.
Qed.

(** *** The bytes of an item *)

Lemma append_nil_r (a : string) : a +:+ "" = a.
Proof.
  induction a as [|c a IH]; [done|].
  change (String c (a +:+ "") = String c a). by rewrite IH.
Qed.

Lemma append_assoc (a b c : string) : (a +:+ b) +:+ c = a +:+ (b +:+ c).
Proof.
  induction a as [|x a IH]; [done|].
  change (String x ((a +:+ b) +:+ c) = String x (a +:+ (b +:+ c))).
  by rewrite IH.
Qed.

Lemma written_app (marshal : Api.SearchResult -> string) (ps qs : list print) :
  written marshal (ps ++ qs) = written marshal ps +:+ written marshal qs.
Proof.
  induction ps as [|p ps IH]; [done|].
  cbn [app written foldr]. fold (written marshal (ps ++ qs)).
  fold (written marshal ps). by rewrite IH, append_assoc.
Qed.

(** A string in which [old] does not occur is left as it is. *)
Lemma replaceFrom_absent (old new : string) (fuel : nat) : forall s : string,
  Contains s old = false -> replaceFrom fuel s old new = s.
Proof.
  induction fuel as [|fuel IH]; intros s Hs; [done|].
  destruct s as [|c s]; [done|].
  cbn [replaceFrom]. cbn [Contains] in Hs.
  apply orb_false_iff in Hs as [-> Hs]. by rewrite IH.
Qed.

Lemma cleanStr_absent (str : string) :
  Contains str "<mark>" = false -> Contains str "</mark>" = false ->
  cleanStr str = str.
Proof.
  intros H1 H2. unfold cleanStr, ReplaceAll.
  rewrite (replaceFrom_absent "<mark>") by done.
  by rewrite replaceFrom_absent.
Qed.

Lemma written_highlights (marshal : Api.SearchResult -> string) (l : list string) :
  Forall (fun str => Contains str "<mark>" = false /\
                     Contains str "</mark>" = false) l ->
  written marshal ((fun str => PrintHighlight (cleanStr str)) <$> l)
  = foldr (fun str acc => ("   • " +:+ str +:+ nl) +:+ acc) "" l.
Proof.
  induction 1 as [|str l [H1 H2] _ IH]; [done|].
  cbn [fmap list_fmap]. change (written marshal (?p :: ?ps))
    with (text marshal p +:+ written marshal ps).
  cbn [text foldr]. by rewrite IH, cleanStr_absent.
Qed.

(** X15. What plain output writes for an item is, byte for byte, the
    markdown block that pretty output builds for it (and prints itself
    when the styling engine is missing or fails), provided the fragments
    shown hold no marker, which plain output would remove. *)
Theorem plain_writes_markdown (o : Options) (renderer : option Renderer) (i : Z)
        (item : Api.SearchItem) (marshal : Api.SearchResult -> string) :
  usePrettyRendering o = false ->
  (includeMatchedContentFlag o = true ->
   Forall (fun str => Contains str "<mark>" = false /\
                      Contains str "</mark>" = false) (fragments item)) ->
  written marshal (showItem o renderer i item) = markdown o i item.
Proof.
  intros Hplain Hclean. unfold showItem, markdown. rewrite Hplain.
  rewrite (written_app marshal [_; _]), !written_app.
  assert (written marshal [PrintLn] = nl) as -> by apply append_nil_r.
  assert (written marshal
            [PrintTitle (GoInt.add i 1) (Api.Title item);
             PrintURL (docsHost +:+ Api.URL item)]
          = (Itoa (GoInt.add i 1) +:+ ". " +:+ Api.Title item +:+ nl) +:+
            ("   " +:+ (docsHost +:+ Api.URL item) +:+ nl)) as ->.
  { cbn [written foldr text]. by rewrite append_nil_r. }
  rewrite (append_assoc (Itoa _ +:+ _)). do 2 f_equal.
  destruct (includeMatchedContentFlag o); cbn [negb].
  - by rewrite written_highlights by auto.
  - case_decide; [done|]. cbn [written foldr text]. by rewrite append_nil_r.
Qed.

Lemma length_slice_from (n : nat) : forall s : string,
  (String.length (slice_from n s) <= String.length s)%nat.
Proof.
  induction n as [|n IH]; intros [|c s]; cbn; try lia.
  specialize (IH s). lia.
Qed.

Lemma length_replaceFrom (old : string) (fuel : nat) : forall s : string,
  (String.length (replaceFrom fuel s old "") <= String.length s)%nat.
Proof.
  induction fuel as [|fuel IH]; intros s; [done|].
  destruct s as [|c s]; [done|].
  cbn [replaceFrom]. destruct (String.prefix old (String c s)).
  - change ("" +:+ ?x) with x.
    pose proof (IH (slice_from (String.length old) (String c s))).
    pose proof (length_slice_from (String.length old) (String c s)). lia.
  - cbn [String.length]. specialize (IH s). lia.
Qed.

(** X16. Removing the markers never lengthens a fragment, and leaves a
    fragment without markers as it is. *)
Theorem cleanStr_shrinks (str : string) :
  len (cleanStr str) <= len str /\
  (Contains str "<mark>" = false -> Contains str "</mark>" = false ->
   cleanStr str = str).
Proof.
  split; [|apply cleanStr_absent].
  unfold len, cleanStr, ReplaceAll.
  pose proof (length_replaceFrom "</mark>"
                (String.length (replaceFrom (String.length str) str "<mark>" ""))
                (replaceFrom (String.length str) str "<mark>" "")).
  pose proof (length_replaceFrom "<mark>" (String.length str) str). lia.
Qed.

End RenderMore.

(** ** [StringSlice] *)

Section StringSliceFacts.

Import StringSlice.

(** X17. A repeated flag collects its values in the order given,
    duplicates included, behind those already there; [String] joins them
    with commas. *)
Theorem StringSlice_collects (s values : list string) :
  SetEach s values = s ++ values /\
  String_ (SetEach [] values) = Join values ",".
Proof.
  assert (forall s, SetEach s values = s ++ values) as H.
  { unfold SetEach, Set_, StringSlice_Set.
    induction values as [|v values IH]; intros s'; cbn.
    - by rewrite app_nil_r.
    - rewrite IH. by rewrite <- app_assoc. }
  split; [apply H|]. unfold String_. by rewrite H.
Qed.

End StringSliceFacts.

(** ** Versions *)

Section VersionsFacts.

Import Versions.

Lemma prefix_append (p s : string) : String.prefix p (p +:+ s) = true.
Proof.
  induction p as [|c p IH]; [by destruct s|].
  change (String.prefix (String c p) (String c (p +:+ s)) = true).
  cbn. by destruct (Ascii.ascii_dec c c).
Qed.

Lemma slice_from_append (p s : string) : slice_from (String.length p) (p +:+ s) = s.
Proof. induction p as [|c p IH]; [done|]. exact IH. Qed.

Lemma TrimPrefix_append (p s : string) : TrimPrefix (p +:+ s) p = s.
Proof.
  unfold TrimPrefix, HasPrefix. by rewrite prefix_append, slice_from_append.
Qed.

(** The version [NormalizeVersion] falls back to. *)
Lemma fallback_shape (load2 : Loaded) :
  exists latest,
    match load2 with
    | inr versions =>
        if decide (LatestVersion versions = "") then "enterprise-server@3.17"
        else "enterprise-server@" +:+ LatestVersion versions
    | inl _ => "enterprise-server@3.17"
    end = "enterprise-server@" +:+ latest.
Proof.
  destruct load2 as [err|versions]; [by exists "3.17"|].
  case_decide; [by exists "3.17"|by exists (LatestVersion versions)].
Qed.

(** X18. [NormalizeVersion] returns "free-pro-team", "enterprise-cloud"
    or a version that begins with "enterprise-server@", whatever it is
    given and whatever the versions file holds; a token that is none of
    these becomes "free-pro-team". *)
Theorem NormalizeVersion_range (load1 load2 : Loaded) (v : string) :
  (NormalizeVersion load1 load2 v = "free-pro-team" \/
   NormalizeVersion load1 load2 v = "enterprise-cloud" \/
   HasPrefix (NormalizeVersion load1 load2 v) "enterprise-server@" = true) /\
  (v <> "enterprise-cloud" -> HasPrefix v "enterprise-server@" = false ->
   NormalizeVersion load1 load2 v = "free-pro-team").
Proof.
  unfold NormalizeVersion. split.
  - repeat case_decide; auto.
    destruct (HasPrefix v "enterprise-server@") eqn:Hp; [|auto].
    destruct (IsVersionSupported load1 _); [auto|].
    destruct (fallback_shape load2) as [latest ->].
    right; right. apply prefix_append.
  - intros Hc Hp. rewrite Hp. repeat case_decide; done.
Qed.

(** X19. Normalizing a normalized version changes nothing. *)
Theorem NormalizeVersion_idempotent (load1 load2 : Loaded) (v : string) :
  NormalizeVersion load1 load2 (NormalizeVersion load1 load2 v)
  = NormalizeVersion load1 load2 v.
Proof.
  assert (forall latest,
            NormalizeVersion load1 load2 ("enterprise-server@" +:+ latest)
            = (if IsVersionSupported load1 latest
               then "enterprise-server@" +:+ latest
               else match load2 with
                    | inr versions =>
                        if decide (LatestVersion versions = "")
                        then "enterprise-server@3.17"
                        else "enterprise-server@" +:+ LatestVersion versions
                    | inl _ => "enterprise-server@3.17"
                    end)) as Hserver.
  { intros latest. unfold NormalizeVersion.
    rewrite decide_False by discriminate.
    rewrite decide_False by discriminate.
    unfold HasPrefix at 1. rewrite prefix_append.
    by rewrite TrimPrefix_append. }
  destruct (decide (v = "free-pro-team")) as [->|Hfree]; [done|].
  destruct (decide (v = "enterprise-cloud")) as [->|Hcloud]; [done|].
  assert (NormalizeVersion load1 load2 v
          = if HasPrefix v "enterprise-server@" then
              if IsVersionSupported load1 (TrimPrefix v "enterprise-server@")
              then v
              else match load2 with
                   | inr versions =>
                       if decide (LatestVersion versions = "")
                       then "enterprise-server@3.17"
                       else "enterprise-server@" +:+ LatestVersion versions
                   | inl _ => "enterprise-server@3.17"
                   end
            else "free-pro-team") as Hv.
  { unfold NormalizeVersion. by rewrite !decide_False by done. }
  destruct (HasPrefix v "enterprise-server@") eqn:Hp; [|by rewrite Hv].
  destruct (IsVersionSupported load1 (TrimPrefix v "enterprise-server@")) eqn:Hs.
  - by rewrite Hv.
  - rewrite Hv. destruct (fallback_shape load2) as [latest Hlatest].
    rewrite Hlatest, Hserver.
    destruct (IsVersionSupported load1 latest); [done|]. by rewrite Hlatest.
Qed.

End VersionsFacts.

(** ** The terminal *)

Section TermFacts.

Import Term.

Variable Split : string -> string -> list string.
Variable Atoi : string -> option Z.

(** X20. Away from Windows the operating system plays no part in
    [IsLight]: two environments with the same variables get the same
    answer, whatever [runtime.GOOS] is on each. *)
Theorem IsLight_off_windows (e1 e2 : Env) :
  (forall name, Getenv e1 name = Getenv e2 name) ->
  GOOS e1 <> "windows" -> GOOS e2 <> "windows" ->
  IsLight Split Atoi e1 = IsLight Split Atoi e2.
Proof.
  intros Hvars H1 H2. unfold IsLight, fromColorfgbg.
  rewrite !Hvars.
  rewrite (decide_False (P := GOOS e1 = "windows")) by done.
  rewrite (decide_False (P := GOOS e2 = "windows")) by done.
  repeat case_decide; try done;
    destruct (Atoi _); try done;
    repeat case_bool_decide; done.
Qed.

(** X21. [IsLight] answers light only on a hint: the theme variable set
    to light, a [COLORFGBG] variable, the Apple terminal, or Windows
    outside Windows Terminal; and the theme variable, when it is light
    or dark, settles the answer alone. *)
Theorem IsLight_needs_hint (e : Env) :
  (IsLight Split Atoi e = true ->
   Getenv e "GH_THEME" = "light" \/
   Getenv e "COLORFGBG" <> "" \/
   Getenv e "TERM_PROGRAM" = "Apple_Terminal" \/
   (GOOS e = "windows" /\ Getenv e "WT_SESSION" = "")) /\
  (Getenv e "GH_THEME" = "light" -> IsLight Split Atoi e = true) /\
  (Getenv e "GH_THEME" = "dark" -> IsLight Split Atoi e = false).
Proof.
  unfold IsLight, fromColorfgbg. split_and!.
  - repeat case_decide; try tauto; try done;
      try (destruct (Atoi _); try tauto);
      repeat case_decide; try tauto; try done;
      repeat case_bool_decide; try done; cbn; try tauto; try done.
    all: intros _; right; right; right; split; [done|].
    all: by destruct (decide (Getenv e "WT_SESSION" = "")).
  - intros ->. done.
  - intros ->. done.
Qed.

(** X22. [GetTerminalWidth] always returns a positive width: the width
    of standard output if that is known and positive, else that of
    standard error if known and positive, else the number in [COLUMNS]
    if that variable is set and holds a positive number, else 120. *)
Theorem GetTerminalWidth_positive (e : Env) (stdoutSize stderrSize : option Z) :
  let width := GetTerminalWidth Atoi e stdoutSize stderrSize in
  width > 0 /\
  (forall w, stdoutSize = Some w -> w > 0 -> width = w) /\
  (usable stdoutSize = None ->
   forall w, stderrSize = Some w -> w > 0 -> width = w) /\
  (usable stdoutSize = None -> usable stderrSize = None ->
   forall w, Getenv e "COLUMNS" <> "" ->
             Atoi (Getenv e "COLUMNS") = Some w -> w > 0 -> width = w) /\
  (usable stdoutSize = None -> usable stderrSize = None ->
   Getenv e "COLUMNS" = "" \/ usable (Atoi (Getenv e "COLUMNS")) = None ->
   width = 120).
Proof.
  cbn zeta. unfold GetTerminalWidth. split_and!.
  - unfold usable. destruct stdoutSize as [w1|], stderrSize as [w2|];
      repeat case_decide; try lia;
      destruct (Atoi _); repeat case_decide; lia.
  - intros w -> Hw. unfold usable. by rewrite decide_True.
  - intros -> w -> Hw. unfold usable. by rewrite decide_True.
  - intros -> -> w Hset Hcols Hw.
    rewrite decide_False by done. rewrite Hcols.
    unfold usable. by rewrite decide_True.
  - intros -> -> [Hunset|Hbad].
    + by rewrite decide_True.
    + case_decide; [done|]. by rewrite Hbad.
Qed.

End TermFacts.

(** ** [main] *)

Section MainFacts.

Import Render Main MoreSamples.

(** The output section always prints something, and panics only on the
    division by the page size. *)
Lemma output_not_empty (o : Options) (t : Terminal) (query : string)
      (r : Api.SearchResult) :
  (output o t query r).1 <> [].
Proof.
  destruct (decide (formatFlag o = "json")) as [Hjson|Hjson].
  { by rewrite output_json. }
  destruct (decide (found r = 0)) as [Hzero|Hzero].
  { by rewrite output_none. }
  rewrite output_listing by done. done.
Qed.

Lemma output_panic (o : Options) (t : Terminal) (query : string)
      (r : Api.SearchResult) (p : panic) :
  (output o t query r).2 = Panicked p -> p = IntegerDivideByZero.
Proof.
  destruct (decide (formatFlag o = "json")) as [Hjson|Hjson].
  { by rewrite output_json. }
  destruct (decide (found r = 0)) as [Hzero|Hzero].
  { by rewrite output_none. }
  rewrite output_listing by done. cbn [snd].
  destruct (pagination_outcome r) as [Hpanic Hok].
  destruct (decide (pageSize r = 0)) as [Hs|Hs].
  - rewrite Hpanic by done. by intros [= <-].
  - by rewrite Hok.
Qed.

Ltac run_cases w o args :=
  unfold main, failure, Fatal;
  destruct (listVersions o);
  [ destruct (firstLoad w)
  | case_decide;
    [ | destruct (checkSize o);
        [ | destruct (Do w _) as [err|err|code [err|body]];
            [ | | case_decide | case_decide;
                  [ | destruct (Unmarshal w body) as [err|result] ] ] ] ] ].

(** X23. A run that fails exits with code 1, writes nothing to standard
    output and reports on standard error; every other run writes to
    standard output.  A run ends with exit code 0 or 1, or with the
    panic of the division by the page size. *)
Theorem main_failure_is_silent (w : World) (o : Options) (args : list string) :
  let run := main w o args in
  (ending run = Exit 1 <-> stdout run = []) /\
  (ending run = Exit 1 -> stderr run <> []) /\
  (ending run = Exit 0 \/ ending run = Exit 1 \/
   ending run = Crash IntegerDivideByZero).
Proof.
  cbn zeta. run_cases w o args; cbn; try (split_and!; [done|done|auto]).
  - destruct (debugFlag o); repeat split; try done; auto.
  - destruct (output o (terminal w) (queryOf o args) result) as [printed how] eqn:Hout.
    pose proof (output_not_empty o (terminal w) (queryOf o args) result) as Hne.
    pose proof (output_panic o (terminal w) (queryOf o args) result) as Hp.
    rewrite Hout in Hne, Hp. cbn in Hne, Hp. cbn.
    destruct how as [|p].
    + split_and!; [|done|auto]. split; [done|].
      intros Hnil. by apply fmap_nil_inv in Hnil.
    + rewrite (Hp p eq_refl). split_and!; [|done|auto]. split; [done|].
      intros Hnil. by apply fmap_nil_inv in Hnil.
Qed.

(** X24. [--list-versions] short-circuits the run: what is written and
    how the run ends depend on the versions file alone, not on the
    query, the other flags, the arguments, the API or the terminal. *)
Theorem list_versions_short_circuits (w w' : World) (o o' : Options)
        (args args' : list string) :
  listVersions o = true -> listVersions o' = true ->
  firstLoad w = firstLoad w' ->
  main w o args = main w' o' args'.
Proof. intros Ho Ho' Hload. unfold main. by rewrite Ho, Ho', Hload. Qed.

(** [--debug] is read nowhere but in [main] itself. *)
Lemma withDebug_listing (debug : bool) (o : Options) (renderer : option Renderer)
      (hits : list Api.SearchItem) (todo : nat) : forall i : nat,
  listing (withDebug debug o) renderer hits i todo = listing o renderer hits i todo.
Proof.
  induction todo as [|todo IH]; intros i; [done|].
  cbn [listing]. destruct (hits !! i); [|done]. by rewrite IH.
Qed.

Lemma withDebug_output (debug : bool) (o : Options) (t : Terminal)
      (query : string) (r : Api.SearchResult) :
  output (withDebug debug o) t query r = output o t query r.
Proof. unfold output. by rewrite withDebug_listing. Qed.

Lemma withDebug_params (debug : bool) (o : Options) (query version : string) :
  Params.buildParams (withDebug debug o) query version
  = Params.buildParams o query version.
Proof. reflexivity. Qed.

(** X25. [--debug] changes standard error only: standard output and the
    way the run ends are the same with and without it, and what is
    written to standard error without it is also written, in the same
    order, with it. *)
Theorem debug_only_adds_to_stderr (w : World) (o : Options) (args : list string) :
  let quiet := main w (withDebug false o) args in
  let loud := main w (withDebug true o) args in
  stdout loud = stdout quiet /\
  ending loud = ending quiet /\
  sublist (stderr quiet) (stderr loud).
Proof.
  cbn zeta. unfold main.
  change (listVersions (withDebug _ o)) with (listVersions o).
  change (queryOf (withDebug _ o) args) with (queryOf o args).
  change (checkSize (withDebug _ o)) with (checkSize o).
  change (versionFlag (withDebug _ o)) with (versionFlag o).
  change (debugFlag (withDebug true o)) with true.
  change (debugFlag (withDebug false o)) with false.
  destruct (listVersions o); [by destruct (firstLoad w)|].
  case_decide; [done|].
  destruct (checkSize o); [done|].
  rewrite !withDebug_params.
  destruct (Do w _) as [err|err|code [err|body]]; try done.
  case_decide; [split_and!; done || reflexivity|].
  destruct (Unmarshal w body) as [err|result].
  - cbn. split_and!; [done|done|].
    apply sublist_cons, sublist_skip, sublist_nil_l.
  - rewrite !withDebug_output.
    destruct (output o (terminal w) (queryOf o args) result) as [printed how].
    cbn. split_and!; [done|done|]. apply sublist_nil_l.
Qed.

(** X26. Outside [--list-versions], a run that does not fail had a
    query, a size from 1 to 50, one request with the parameters built
    from the flags that the API answered with status 200 and a body the
    decoder accepted; its standard output is the output section for the
    decoded result. *)
Theorem success_means_validated (w : World) (o : Options) (args : list string) :
  listVersions o = false ->
  ending (main w o args) <> Exit 1 ->
  let query := queryOf o args in
  let version :=
    Versions.NormalizeVersion (firstLoad w) (secondLoad w) (versionFlag o) in
  query <> "" /\ 1 <= sizeFlag o <= 50 /\
  exists body result,
    Do w (Params.buildParams o query version) = Response 200 (inr body) /\
    Unmarshal w body = inr result /\
    stdout (main w o args) = inr <$> (output o (terminal w) query result).1.
Proof.
  intros Hlist. cbn zeta. unfold main, failure, Fatal. rewrite Hlist.
  case_decide; [done|].
  destruct (checkSize o) eqn:Hsize; [done|].
  destruct (Do w _) as [err|err|code [err|body]] eqn:Hdo; try done.
  { by case_decide. }
  case_decide as Hcode; [done|].
  destruct (Unmarshal w body) as [err|result] eqn:Hdecode; [done|].
  intros _. split_and!; try done.
  - unfold checkSize in Hsize. repeat case_decide; try done; lia.
  - unfold checkSize in Hsize. repeat case_decide; try done; lia.
  - exists body, result.
    assert (code = 200) as -> by (destruct (decide (code = 200)); done).
    split_and!; try done.
    by destruct (output o (terminal w) (queryOf o args) result).
Qed.

End MainFacts.

(** ** The further properties on sample runs *)

Section MoreRuns.

Import Reorder Render Reading Samples MoreSamples.

Lemma reorderArgs_no_flags_witness :
  reorderArgs ["ssh"; "key"; "authentication"] = ["ssh"; "key"; "authentication"].
Proof. apply reorderArgs_no_flags. repeat constructor. Defined.

Lemma reorderArgs_query_first_witness :
  reorderArgs (["ssh key"] ++ ["--debug"; "--size"; "5"])
  = ["--debug"; "--size"; "5"] ++ ["ssh key"].
Proof.
  destruct (reorderArgs_query_first ["ssh key"] ["--debug"; "--size"; "5"])
    as [_ H]; [repeat constructor|].
  apply H. reflexivity.
Defined.

Lemma reorderArgs_trailing_flag_witness :
  reorderArgs (["ssh key"] ++ ["--sort"]) = ["--sort"; "ssh key"] /\
  splitByClass ["--sort"; "ssh key"] = (["--sort"; "ssh key"], []).
Proof.
  apply (reorderArgs_trailing_flag "ssh key" [] "--sort");
    [reflexivity|repeat constructor].
Defined.

Lemma no_other_parameter_witness :
  "include" ∈ ["query"; "size"; "version"; "language"; "page"; "sort";
               "highlights"; "include"; "toplevel"; "aggregate"].
Proof.
  apply (no_other_parameter defaults "ssh key" "free-pro-team" "include").
  exists ["intro"]. vm_compute. reflexivity.
Defined.

Lemma output_without_styling_witness :
  output (plainWithSize 5) dumb "ssh key" (response 3 5 1 3)
  = output (plainWithSize 5) styled "ssh key" (response 3 5 1 3).
Proof. apply output_without_styling. left. reflexivity. Defined.

Lemma description_or_highlights_witness :
  usePrettyRendering (plainWithSize 5) = false /\
  includeMatchedContentFlag (plainWithSize 5) = false /\
  showItem (withSize 5) None 0 (hit "Connect.")
  = [PrintMarkdown (markdown (withSize 5) 0 (hit "Connect."))].
Proof.
  destruct (description_or_highlights (plainWithSize 5) dumb "ssh key"
              (response 1 5 1 1)) as (H & _).
  destruct (H (description "Connect with SSH keys.")) as (Hplain & Hoff & _).
  { vm_compute. do 4 apply list_elem_of_further. apply list_elem_of_here. }
  destruct (description_or_highlights (withSize 5) dumb "ssh key"
              (response 1 5 1 1)) as (_ & _ & Hpretty & _).
  destruct (Hpretty eq_refl None 0 (hit "Connect."))
    as [Hmd|(render & styled & Hnone & _)]; [|discriminate Hnone].
  split_and!; [exact Hplain|exact Hoff|exact Hmd].
Defined.

Lemma plain_numbering_witness :
  titles (output (plainWithSize 5) dumb "ssh key" (response 2 5 1 2)).1
  = [(1, "About SSH"); (2, "About SSH")].
Proof.
  rewrite plain_numbering;
    [reflexivity|reflexivity|discriminate|discriminate|].
  vm_compute. split; discriminate.
Defined.

Lemma hint_suggests_valid_size_witness : checkSize (withSize 10) = None.
Proof.
  destruct (hint_suggests_valid_size (withSize 5) (withSize 10) dumb "ssh key"
              (response 10 5 1 5)) as [H _].
  destruct (H 10) as (_ & _ & Hok); [|apply Hok; reflexivity].
  vm_compute. do 7 apply list_elem_of_further. apply list_elem_of_here.
Defined.

Lemma plain_writes_markdown_witness :
  written (fun _ => "") (showItem (plainWithSize 5) None 0 (hit "Connect."))
  = markdown (plainWithSize 5) 0 (hit "Connect.").
Proof.
  apply plain_writes_markdown; [reflexivity|]. intros H. discriminate H.
Defined.

Lemma cleanStr_shrinks_witness : cleanStr "Add an SSH key" = "Add an SSH key".
Proof. apply (cleanStr_shrinks "Add an SSH key"); reflexivity. Defined.

Lemma NormalizeVersion_range_witness :
  Versions.NormalizeVersion (inl "no file") (inl "no file") "latest"
  = "free-pro-team".
Proof.
  apply (NormalizeVersion_range (inl "no file") (inl "no file") "latest");
    [discriminate|reflexivity].
Defined.

Lemma IsLight_off_windows_witness :
  Term.IsLight noSplit noAtoi (env [("TERM_PROGRAM", "Apple_Terminal")] "linux")
  = Term.IsLight noSplit noAtoi (env [("TERM_PROGRAM", "Apple_Terminal")] "darwin").
Proof.
  apply IsLight_off_windows; [intros name; reflexivity| |];
    intros H; discriminate H.
Defined.

Lemma IsLight_needs_hint_witness :
  Term.IsLight noSplit noAtoi (env [("GH_THEME", "dark")] "windows") = false.
Proof.
  apply (IsLight_needs_hint noSplit noAtoi (env [("GH_THEME", "dark")] "windows")).
  reflexivity.
Defined.

Lemma GetTerminalWidth_positive_witness :
  Term.GetTerminalWidth noAtoi (env [] "linux") (Some 80) None = 80 /\
  Term.GetTerminalWidth atoi100 (env [("COLUMNS", "100")] "linux") (Some 0) None
  = 100.
Proof.
  pose proof (GetTerminalWidth_positive noAtoi (env [] "linux") (Some 80) None)
    as H.
  pose proof (GetTerminalWidth_positive atoi100 (env [("COLUMNS", "100")] "linux")
                (Some 0) None) as H'.
  cbn zeta in H, H'.
  destruct H as (_ & H & _). destruct H' as (_ & _ & _ & H' & _).
  split.
  - apply (H 80); reflexivity.
  - apply (H' eq_refl eq_refl 100); [discriminate|reflexivity|reflexivity].
Defined.

Lemma main_failure_is_silent_witness :
  Main.stderr (Main.main (answering (Main.DoError "timeout") (response 0 5 1 0))
                         (withSize 5) ["ssh key"]) <> [].
Proof.
  apply (main_failure_is_silent
           (answering (Main.DoError "timeout") (response 0 5 1 0))
           (withSize 5) ["ssh key"]).
  reflexivity.
Defined.

Lemma list_versions_short_circuits_witness :
  Main.main (answering (Main.DoError "timeout") (response 0 5 1 0))
            listVersionsOnly []
  = Main.main (answering (Main.Response 200 (inr "{}")) (response 3 5 1 3))
              listVersionsOnly ["ssh key"].
Proof. apply list_versions_short_circuits; reflexivity. Defined.

Lemma success_means_validated_witness :
  queryOf (withSize 5) ["ssh key"] <> "" /\ 1 <= sizeFlag (withSize 5) <= 50.
Proof.
  destruct (success_means_validated
              (answering (Main.Response 200 (inr "{}")) (response 3 5 1 3))
              (withSize 5) ["ssh key"]) as (Hq & Hs & _);
    [reflexivity|vm_compute; discriminate|].
  split; [exact Hq|exact Hs].
Defined.

End MoreRuns.
